(** * msgqueue/processor: a shallow embedding of [processor.go]

    The processor reserves messages from a backing queue, hands them to a
    user handler and then either releases them (with a delay) or deletes
    them (through a batcher).  This development embeds the sequential
    behaviour of the methods of [Processor] as state-passing functions on a
    record holding the fields of the Go struct, and proves properties of the
    retry state machine, the backoff calculator, the pause controller and
    the lifecycle entry points.

    Conventions.
    - [uint32] counters are [Z] values kept in [0, 2^32) with the
      wrap-around of [atomic.AddUint32] written out.
    - [time.Duration] is a signed 64-bit number of nanoseconds, a [Z] kept
      in [-2^63, 2^63) by [wrap64].
    - Calls that leave the processor (the handler, the fallback handler,
      [Queuer.Release], [Batcher.Add], [Queuer.DeleteBatch], the logger) are
      recorded in a trace, most recent call first; what these calls return
      is supplied by an environment record. *)

From Stdlib Require Import ZArith List String Bool Lia.
Import ListNotations.

Local Open Scope Z_scope.

(** ** Machine integers *)

Definition two32 : Z := 2 ^ 32.
Definition two63 : Z := 2 ^ 63.
Definition two64 : Z := 2 ^ 64.

(** Conversion to [uint32]: the low 32 bits. *)
Definition uint32 (z : Z) : Z := z mod two32.

(** Conversion to [uint] (64 bits wide on the platforms Go targets here). *)
Definition uint64 (z : Z) : Z := z mod two64.

(** Two's-complement reading of the low 64 bits: the value of an [int64]
    after an operation that may overflow. *)
Definition wrap64 (z : Z) : Z := (z + two63) mod two64 - two63.

(** [^x] on a [uint32]: bitwise complement. *)
Definition not32 (x : Z) : Z := Z.lxor x (two32 - 1).

(** [x << n] on an [int64] with an unsigned shift count: bits shifted out
    are lost and a count of 64 or more gives 0. *)
Definition shl64 (x n : Z) : Z :=
  if n <? 64 then wrap64 (Z.shiftl x n) else 0.

(** ** Durations *)

Definition Duration : Type := Z.

Definition Nanosecond : Duration := 1.
Definition Microsecond : Duration := 1000 * Nanosecond.
Definition Millisecond : Duration := 1000 * Microsecond.
Definition Second : Duration := 1000 * Millisecond.
Definition Minute : Duration := 60 * Second.
Definition Hour : Duration := 60 * Minute.

Definition consumerBackoff : Duration := Second.
Definition maxBackoff : Duration := 12 * Hour.

(** ** The backoff calculator *)

(** [exponentialBackoff(dur, retry)]: [dur <<= uint(retry - 1)], then the
    clamp at [maxBackoff]. *)
Definition exponentialBackoff (dur : Duration) (retry : Z) : Duration :=
  let dur := shl64 dur (uint64 (retry - 1)) in
  if dur >? maxBackoff then maxBackoff else dur.

(** The backoff the formula [min(b * 2^(k-1), maxBackoff)] describes, on
    unbounded integers. *)
Definition exp_backoff_spec (b : Duration) (k : Z) : Z :=
  Z.min (b * 2 ^ (k - 1)) maxBackoff.

(** ** Errors *)

(** Go [error] values as the processor tells them apart: the sentinel
    [ErrNotSupported], errors built from a message, the error of an expired
    stop timeout, and errors that also implement [Delayer]. *)
Inductive error : Type :=
| ErrNotSupported
| ErrorString (s : string)
| ErrWorkersDidNotStop (timeout : Duration)
| ErrDelayer (s : string) (delay : Duration).

(** The type assertion [reason.(Delayer)] followed by [Delay()]. *)
Definition asDelayer (reason : error) : option Duration :=
  match reason with
  | ErrDelayer _ d => Some d
  | _ => None
  end.

(** ** Messages and options *)

(** Modelled from the spec: the declaration of [msgqueue.Message] is not
    part of the processor package; these are the fields the processor
    reads. *)
Record Message : Type := mkMessage {
  Id : string;
  Name : string;
  Delay : Duration;
  ReservedCount : Z
}.

(** Modelled from the spec: the declaration of [msgqueue.Options] is not
    part of the processor package; these are the fields the processor
    reads.  The handlers are kept in the environment below. *)
Record Options : Type := mkOptions {
  WorkerNumber : Z;
  ScavengerNumber : Z;
  BufferSize : Z;
  RetryLimit : Z;
  MinBackoff : Duration
}.

(** ** Calls that leave the processor *)

Inductive log_line : Type :=
| LogRetry (delay : Duration) (reason : error)
| LogReleaseFailed (err : error)
| LogHandlerFailed (reason : error)
| LogFallbackFailed (err : error)
| LogDeleteBatchFailed (err : error).

Inductive event : Type :=
| EvHandle (msg : Message)
| EvFallback (msg : Message)
| EvRelease (msg : Message) (delay : Duration)
| EvBatchAdd (msg : Message)
| EvDeleteBatch (msgs : list Message)
| EvLog (l : log_line).

(** What the collaborators answer.  [fallbackHandler] is [None] when no
    fallback handler is configured ([p.fallbackHandler == nil]).  [since]
    is the reading of [time.Since(start)] after the handler ran on a
    message, and [ewma] stands for the floating-point expression of
    [updateAvgDuration], [uint32((1-decay)*float64(avg) + decay*ms)]. *)
Record Env : Type := mkEnv {
  handler : Message -> option error;
  fallbackHandler : option (Message -> option error);
  q_Release : Message -> Duration -> option error;
  q_DeleteBatch : list Message -> option error;
  q_ReserveN : Z -> list Message * option error;
  delBatch_Wait : option error;
  since : Message -> Duration;
  ewma : Z -> Z -> Z
}.

(** ** The processor *)

Record Processor : Type := mkProcessor {
  opt : Options;
  ch : list Message;
  delBatch : list Message;
  timers : list (Duration * Message);
  stop_closed : bool;
  trace : list event;
  _started : Z;
  errCount : Z;
  delayCount : Z;
  delaySec : Z;
  inFlight : Z;
  deleting : Z;
  processed : Z;
  fails : Z;
  retries : Z;
  avgDuration : Z
}.

(** Addresses of the [uint32] words of the struct, the [&p.x] of the
    source. *)
Module addr.
Inductive t : Type :=
| started | errCount | delayCount | delaySec | inFlight | deleting
| processed | fails | retries | avgDuration.
End addr.

Definition peek (a : addr.t) (p : Processor) : Z :=
  match a with
  | addr.started => _started p
  | addr.errCount => errCount p
  | addr.delayCount => delayCount p
  | addr.delaySec => delaySec p
  | addr.inFlight => inFlight p
  | addr.deleting => deleting p
  | addr.processed => processed p
  | addr.fails => fails p
  | addr.retries => retries p
  | addr.avgDuration => avgDuration p
  end.

Definition poke (a : addr.t) (v : Z) (p : Processor) : Processor :=
  let f (b : addr.t) (old : Z) : Z :=
    match a, b with
    | addr.started, addr.started | addr.errCount, addr.errCount
    | addr.delayCount, addr.delayCount | addr.delaySec, addr.delaySec
    | addr.inFlight, addr.inFlight | addr.deleting, addr.deleting
    | addr.processed, addr.processed | addr.fails, addr.fails
    | addr.retries, addr.retries | addr.avgDuration, addr.avgDuration => v
    | _, _ => old
    end in
  {| opt := opt p; ch := ch p; delBatch := delBatch p; timers := timers p;
     stop_closed := stop_closed p; trace := trace p;
     _started := f addr.started (_started p);
     errCount := f addr.errCount (errCount p);
     delayCount := f addr.delayCount (delayCount p);
     delaySec := f addr.delaySec (delaySec p);
     inFlight := f addr.inFlight (inFlight p);
     deleting := f addr.deleting (deleting p);
     processed := f addr.processed (processed p);
     fails := f addr.fails (fails p);
     retries := f addr.retries (retries p);
     avgDuration := f addr.avgDuration (avgDuration p) |}.

Definition set_ch (c : list Message) (p : Processor) : Processor :=
  {| opt := opt p; ch := c; delBatch := delBatch p; timers := timers p;
     stop_closed := stop_closed p; trace := trace p;
     _started := _started p; errCount := errCount p;
     delayCount := delayCount p; delaySec := delaySec p;
     inFlight := inFlight p; deleting := deleting p;
     processed := processed p; fails := fails p; retries := retries p;
     avgDuration := avgDuration p |}.

Definition set_delBatch (b : list Message) (p : Processor) : Processor :=
  {| opt := opt p; ch := ch p; delBatch := b; timers := timers p;
     stop_closed := stop_closed p; trace := trace p;
     _started := _started p; errCount := errCount p;
     delayCount := delayCount p; delaySec := delaySec p;
     inFlight := inFlight p; deleting := deleting p;
     processed := processed p; fails := fails p; retries := retries p;
     avgDuration := avgDuration p |}.

Definition set_timers (t : list (Duration * Message)) (p : Processor)
  : Processor :=
  {| opt := opt p; ch := ch p; delBatch := delBatch p; timers := t;
     stop_closed := stop_closed p; trace := trace p;
     _started := _started p; errCount := errCount p;
     delayCount := delayCount p; delaySec := delaySec p;
     inFlight := inFlight p; deleting := deleting p;
     processed := processed p; fails := fails p; retries := retries p;
     avgDuration := avgDuration p |}.

Definition set_stop_closed (b : bool) (p : Processor) : Processor :=
  {| opt := opt p; ch := ch p; delBatch := delBatch p; timers := timers p;
     stop_closed := b; trace := trace p;
     _started := _started p; errCount := errCount p;
     delayCount := delayCount p; delaySec := delaySec p;
     inFlight := inFlight p; deleting := deleting p;
     processed := processed p; fails := fails p; retries := retries p;
     avgDuration := avgDuration p |}.

Definition set_trace (t : list event) (p : Processor) : Processor :=
  {| opt := opt p; ch := ch p; delBatch := delBatch p; timers := timers p;
     stop_closed := stop_closed p; trace := t;
     _started := _started p; errCount := errCount p;
     delayCount := delayCount p; delaySec := delaySec p;
     inFlight := inFlight p; deleting := deleting p;
     processed := processed p; fails := fails p; retries := retries p;
     avgDuration := avgDuration p |}.

(** [New(q, opt)]: a processor with an empty channel and all words zero. *)
Definition New (o : Options) : Processor :=
  {| opt := o; ch := []; delBatch := []; timers := [];
     stop_closed := false; trace := [];
     _started := 0; errCount := 0; delayCount := 0; delaySec := 0;
     inFlight := 0; deleting := 0; processed := 0; fails := 0;
     retries := 0; avgDuration := 0 |}.

(** ** A state monad over the processor *)

Definition M (A : Type) : Type := Processor -> A * Processor.

Definition ret {A : Type} (a : A) : M A := fun p => (a, p).

Definition bind {A B : Type} (m : M A) (k : A -> M B) : M B :=
  fun p => let (a, p') := m p in k a p'.

Declare Scope proc_scope.
Delimit Scope proc_scope with proc.
Notation "x <- m ;; k" := (bind m (fun x => k))
  (at level 61, m at next level, right associativity) : proc_scope.
Notation "m ;; k" := (bind m (fun _ => k))
  (at level 61, right associativity) : proc_scope.
Local Open Scope proc_scope.

Definition get : M Processor := fun p => (p, p).
Definition modify (f : Processor -> Processor) : M unit := fun p => (tt, f p).

(** The [sync/atomic] operations, run without interleaving. *)
Definition LoadUint32 (a : addr.t) : M Z := fun p => (peek a p, p).

Definition StoreUint32 (a : addr.t) (v : Z) : M unit :=
  fun p => (tt, poke a v p).

Definition AddUint32 (a : addr.t) (delta : Z) : M Z :=
  fun p => let v := uint32 (peek a p + delta) in (v, poke a v p).

Definition CompareAndSwapUint32 (a : addr.t) (old new : Z) : M bool :=
  fun p => if peek a p =? old then (true, poke a new p) else (false, p).

(** Record a call that leaves the processor. *)
Definition emit (e : event) : M unit :=
  modify (fun p => set_trace (e :: trace p) p).

Definition log_Printf (l : log_line) : M unit := emit (EvLog l).

(** Result of an operation that may have to wait on the channel [p.ch]:
    it returns, or it is parked on a send to a full channel. *)
Inductive outcome (A : Type) : Type :=
| Returns (a : A) (p : Processor)
| Blocks (p : Processor).
Arguments Returns {A} a p.
Arguments Blocks {A} p.

(** Which case of the [select] in [stopWorkersTimeout] is taken. *)
Inductive select_case : Type :=
| TimeAfter
| Stopped.

Section WithEnv.

Variable E : Env.

(** *** Pause controller *)

Definition threshold : Z := 100.

Definition paused : M Duration :=
  dc <- LoadUint32 addr.delayCount ;;
  if dc >? threshold then
    ds <- LoadUint32 addr.delaySec ;;
    ret (wrap64 (ds * Second))
  else
    ec <- LoadUint32 addr.errCount ;;
    if ec >? threshold then ret Minute else ret 0.

Definition resetPause : M unit :=
  StoreUint32 addr.errCount 0 ;;
  StoreUint32 addr.delayCount 0.

(** *** Statistics *)

Definition updateAvgDuration (dur : Duration) : M unit :=
  let ms := Z.quot dur Millisecond in
  avg <- LoadUint32 addr.avgDuration ;;
  let newAvg := uint32 (ewma E avg ms) in
  _ <- CompareAndSwapUint32 addr.avgDuration avg newAvg ;;
  ret tt.

(** *** Batcher *)

(** Modelled from the spec: [internal.Batcher] is not part of the processor
    package.  [Add] buffers the item for a later flush. *)
Definition delBatch_Add (msg : Message) : M unit :=
  emit (EvBatchAdd msg) ;;
  modify (fun p => set_delBatch (delBatch p ++ [msg]) p).

(** *** Release and delete *)

Definition releaseBackoff (msg : Message) (reason : option error)
  : M Duration :=
  match match reason with Some r => asDelayer r | None => None end with
  | Some delay =>
      (if delay >? Minute then
         StoreUint32 addr.delaySec (uint32 (Z.quot delay Second)) ;;
         _ <- AddUint32 addr.delayCount 1 ;;
         ret tt
       else ret tt) ;;
      ret delay
  | None =>
      if Delay msg >? 0 then ret (Delay msg)
      else
        p <- get ;;
        ret (exponentialBackoff (MinBackoff (opt p)) (ReservedCount msg))
  end.

Definition release (msg : Message) (reason : option error) : M unit :=
  delay <- releaseBackoff msg reason ;;
  match reason with
  | Some r => log_Printf (LogRetry delay r)
  | None => ret tt
  end ;;
  emit (EvRelease msg delay) ;;
  match q_Release E msg delay with
  | Some err => log_Printf (LogReleaseFailed err)
  | None => ret tt
  end ;;
  _ <- AddUint32 addr.inFlight (not32 (uint32 0)) ;;
  ret tt.

Definition delete (msg : Message) (reason : option error) : M unit :=
  match reason with
  | None => resetPause
  | Some r =>
      log_Printf (LogHandlerFailed r) ;;
      match fallbackHandler E with
      | Some h =>
          emit (EvFallback msg) ;;
          match h msg with
          | Some err => log_Printf (LogFallbackFailed err)
          | None => ret tt
          end
      | None => ret tt
      end
  end ;;
  _ <- AddUint32 addr.inFlight (not32 (uint32 0)) ;;
  _ <- AddUint32 addr.deleting 1 ;;
  delBatch_Add msg.

Definition deleteBatch (msgs : list Message) : M unit :=
  emit (EvDeleteBatch msgs) ;;
  match q_DeleteBatch E msgs with
  | Some err => log_Printf (LogDeleteBatchFailed err)
  | None => ret tt
  end ;;
  _ <- AddUint32 addr.deleting
         (not32 (uint32 (Z.of_nat (List.length msgs) - 1))) ;;
  ret tt.

(** Modelled from the spec: [Batcher.Wait] returns when all items added
    before the call have been flushed, and reports the first terminal
    error, if any.  The pending items go to the flush function in one
    batch; the error comes from the environment. *)
Definition delBatch_Wait' : M (option error) :=
  p <- get ;;
  match delBatch p with
  | [] => ret tt
  | msgs => modify (set_delBatch []) ;; deleteBatch msgs
  end ;;
  ret (delBatch_Wait E).

(** *** Handler dispatcher *)

Definition Process (msg : Message) : M (option error) :=
  if Delay msg >? 0 then
    release msg None ;;
    ret None
  else
    emit (EvHandle msg) ;;
    let err := handler E msg in
    updateAvgDuration (since E msg) ;;
    match err with
    | None =>
        _ <- AddUint32 addr.processed 1 ;;
        delete msg None ;;
        ret None
    | Some _ =>
        p <- get ;;
        (if ReservedCount msg <? RetryLimit (opt p) then
           _ <- AddUint32 addr.retries 1 ;;
           release msg err
         else
           _ <- AddUint32 addr.fails 1 ;;
           delete msg err) ;;
        ret err
    end.

(** *** Enqueueing *)

Definition queueMessage (msg : Message) (p : Processor) : outcome unit :=
  let (_, p1) := AddUint32 addr.inFlight 1 p in
  if Z.of_nat (List.length (ch p1)) <? BufferSize (opt p1)
  then Returns tt (set_ch (ch p1 ++ [msg]) p1)
  else Blocks p1.

Definition Add (msg : Message) (p : Processor) : outcome (option error) :=
  match queueMessage msg p with
  | Returns _ p' => Returns None p'
  | Blocks p' => Blocks p'
  end.

(** [time.AfterFunc(delay, ...)] is recorded as a pending timer. *)
Definition AddDelay (msg : Message) (delay : Duration) (p : Processor)
  : outcome (option error) :=
  if delay =? 0 then Add msg p
  else
    let (_, p1) := AddUint32 addr.inFlight 1 p in
    Returns None (set_timers ((delay, msg) :: timers p1) p1).

(** *** Lifecycle *)

Definition stopped : M bool :=
  s <- LoadUint32 addr.started ;;
  ret (s =? 0).

(** [sel] is the case of the [select] that fires: the timer, or the
    wait group reaching zero. *)
Definition stopWorkersTimeout (timeout : Duration) (sel : select_case)
  : M (option error) :=
  swapped <- CompareAndSwapUint32 addr.started 1 0 ;;
  if negb swapped then ret None
  else
    modify (set_stop_closed true) ;;
    match sel with
    | TimeAfter => ret (Some (ErrWorkersDidNotStop timeout))
    | Stopped => delBatch_Wait'
    end.

Definition StopTimeout (timeout : Duration) (sel : select_case)
  : M (option error) :=
  stopWorkersTimeout timeout sel.


Definition reserveOne : M (Message + error) :=
  p <- get ;;
  match ch p with
  | msg :: rest => modify (set_ch rest) ;; ret (inl msg)
  | [] =>
      let (msgs, err) := q_ReserveN E 1 in
      match err with
      | Some ErrNotSupported | None =>
          match msgs with
          | [] => ret (inr (ErrorString "queue is empty"))
          | m :: _ =>
              _ <- AddUint32 addr.inFlight 1 ;;
              ret (inl m)
          end
      | Some e => ret (inr e)
      end
  end.

Definition ProcessOne : M (option error) :=
  r <- reserveOne ;;
  match r with
  | inr err => ret (Some err)
  | inl msg =>
      retErr <- Process msg ;;
      werr <- delBatch_Wait' ;;
      match werr, retErr with
      | Some err, None => ret (Some err)
      | _, _ => ret retErr
      end
  end.

End WithEnv.

(** The processor once the handler has run on [msg]: the call is on the
    trace and its duration is sampled into [avgDuration]. *)
Definition after_handler (E : Env) (msg : Message) (p : Processor)
  : Processor :=
  snd ((emit (EvHandle msg) ;; updateAvgDuration E (since E msg)) p).


(** The first non-nil error of two. *)
Definition first_error (a b : option error) : option error :=
  match a with
  | Some _ => a
  | None => b
  end.

(** The tail of [ProcessOne] once a message was dispatched: wait for the
    batcher and combine the two errors. *)
Definition then_Wait (E : Env) (r : option error * Processor)
  : option error * Processor :=
  let (retErr, p1) := r in
  let (werr, p2) := delBatch_Wait' E p1 in
  (first_error retErr werr, p2).



(** ** Observations on the trace *)

Definition is_release (e : event) : bool :=
  match e with EvRelease _ _ => true | _ => false end.

Definition is_delete (e : event) : bool :=
  match e with EvBatchAdd _ => true | _ => false end.

Definition is_handle (e : event) : bool :=
  match e with EvHandle _ => true | _ => false end.

Definition is_fallback (e : event) : bool :=
  match e with EvFallback _ => true | _ => false end.

(** Number of calls of [Queuer.Release], made by [release] only. *)
Definition releases (t : list event) : nat := List.length (filter is_release t).

(** Number of calls of [Batcher.Add], made by [delete] only. *)
Definition deletes (t : list event) : nat := List.length (filter is_delete t).

Definition handled (t : list event) : nat := List.length (filter is_handle t).

Definition fallbacks (t : list event) : nat :=
  List.length (filter is_fallback t).

(** ** Redelivery *)

Definition with_ReservedCount (msg : Message) (rc : Z) : Message :=
  {| Id := Id msg; Name := Name msg; Delay := Delay msg;
     ReservedCount := rc |}.

(** Modelled from the spec: the backing queue is not part of the processor
    package.  It increments [reserved_count] each time the message is
    reserved. *)
Definition reserve_again (msg : Message) : Message :=
  with_ReservedCount msg (ReservedCount msg + 1).

(** Dispatch a message, and dispatch it again after every release, until a
    dispatch ends in delete.  The result is the number of dispatches that
    ended in release, and the final processor. *)
Fixpoint dispatch_until_deleted (E : Env) (fuel : nat) (msg : Message)
  (p : Processor) : option (nat * Processor) :=
  match fuel with
  | O => None
  | S fuel' =>
      let (_, p') := Process E msg p in
      if (releases (trace p) <? releases (trace p'))%nat then
        match dispatch_until_deleted E fuel' (reserve_again msg) p' with
        | Some (n, q) => Some (S n, q)
        | None => None
        end
      else Some (O, p')
  end.

(** ** Sample configurations *)

Definition sample_opt : Options :=
  {| WorkerNumber := 4; ScavengerNumber := 2; BufferSize := 8;
     RetryLimit := 3; MinBackoff := Second |}.

Definition patient_opt : Options :=
  {| WorkerNumber := 4; ScavengerNumber := 2; BufferSize := 8;
     RetryLimit := 100; MinBackoff := Second |}.

Definition job (delay : Duration) (rc : Z) : Message :=
  {| Id := "42"; Name := "job"; Delay := delay; ReservedCount := rc |}.

(** A handler that always fails with a plain error, no fallback handler, a
    backend whose calls succeed and whose queue is empty. *)
Definition failing_env : Env :=
  {| handler := fun _ => Some (ErrorString "boom");
     fallbackHandler := None;
     q_Release := fun _ _ => None;
     q_DeleteBatch := fun _ => None;
     q_ReserveN := fun _ => ([], None);
     delBatch_Wait := None;
     since := fun _ => 5 * Millisecond;
     ewma := fun avg _ => avg |}.

(** As [failing_env], with a fallback handler that succeeds. *)
Definition fallback_env : Env :=
  {| handler := fun _ => Some (ErrorString "boom");
     fallbackHandler := Some (fun _ => None);
     q_Release := fun _ _ => None;
     q_DeleteBatch := fun _ => None;
     q_ReserveN := fun _ => ([], None);
     delBatch_Wait := None;
     since := fun _ => 5 * Millisecond;
     ewma := fun avg _ => avg |}.

(** A handler that fails with an error carrying a delay of two minutes. *)
Definition delaying_env : Env :=
  {| handler := fun _ => Some (ErrDelayer "later" (2 * Minute));
     fallbackHandler := None;
     q_Release := fun _ _ => None;
     q_DeleteBatch := fun _ => None;
     q_ReserveN := fun _ => ([], None);
     delBatch_Wait := None;
     since := fun _ => 5 * Millisecond;
     ewma := fun avg _ => avg |}.

(** A handler that succeeds, and a batcher whose [Wait] reports an error. *)
Definition flush_error_env : Env :=
  {| handler := fun _ => None;
     fallbackHandler := None;
     q_Release := fun _ _ => None;
     q_DeleteBatch := fun _ => Some (ErrorString "delete failed");
     q_ReserveN := fun _ => ([], None);
     delBatch_Wait := Some (ErrorString "flush failed");
     since := fun _ => 5 * Millisecond;
     ewma := fun avg _ => avg |}.

(** A backend whose [ReserveN] fails with a transient error. *)
Definition reserve_error_env : Env :=
  {| handler := fun _ => None;
     fallbackHandler := None;
     q_Release := fun _ _ => None;
     q_DeleteBatch := fun _ => None;
     q_ReserveN := fun _ => ([], Some (ErrorString "connection refused"));
     delBatch_Wait := None;
     since := fun _ => 5 * Millisecond;
     ewma := fun avg _ => avg |}.

(** A running processor: [New] followed by the swap of [startWorkers]. *)
Definition running (o : Options) : Processor :=
  poke addr.started 1 (New o).

(** ** Further operations of the processor *)

(** The snapshot [Stats()] returns. *)
Record Stats : Type := mkStats {
  InFlight : Z;
  Deleting : Z;
  Processed : Z;
  Retries : Z;
  Fails : Z;
  AvgDuration : Duration
}.

(** Goroutines the processor starts, and the state they are counted in:
    the processor, the counter of [p.wg] and the goroutines started so
    far, most recent first. *)
Inductive task : Type :=
| Worker
| Fetcher.

Record Runtime : Type := mkRuntime {
  proc : Processor;
  wg : Z;
  spawned : list task
}.

(** [p.wg.Add(delta)]: [None] stands for the panic of a wait group whose
    counter would become negative. *)
Definition wg_Add (delta : Z) (rt : Runtime) : option Runtime :=
  if wg rt + delta <? 0 then None
  else Some {| proc := proc rt; wg := wg rt + delta; spawned := spawned rt |}.

(** [go f()], [n] times over. *)
Definition spawn (t : task) (n : nat) (rt : Runtime) : Runtime :=
  {| proc := proc rt; wg := wg rt; spawned := repeat t n ++ spawned rt |}.

Definition startWorkers (rt : Runtime) : option (bool * Runtime) :=
  let (swapped, p1) := CompareAndSwapUint32 addr.started 0 1 (proc rt) in
  if negb swapped then Some (false, rt)
  else
    let p2 := set_stop_closed false p1 in
    match wg_Add (WorkerNumber (opt p2))
            {| proc := p2; wg := wg rt; spawned := spawned rt |} with
    | None => None
    | Some rt1 =>
        Some (true, spawn Worker (Z.to_nat (WorkerNumber (opt p2))) rt1)
    end.

Definition Start (rt : Runtime) : option (option error * Runtime) :=
  match startWorkers rt with
  | None => None
  | Some (false, rt1) => Some (None, rt1)
  | Some (true, rt1) =>
      match wg_Add 1 rt1 with
      | None => None
      | Some rt2 => Some (None, spawn Fetcher 1 rt2)
      end
  end.

(** [dequeueMessage]: [pick_stop] tells which case the outer [select]
    takes when both the channel and the stop signal are ready.  A [stop]
    that is not closed (or not yet made) is never ready. *)
Definition dequeueMessage (pick_stop : bool) (p : Processor)
  : outcome (option Message) :=
  match ch p with
  | msg :: rest =>
      if stop_closed p && pick_stop then
        match ch p with
        | msg' :: rest' => Returns (Some msg') (set_ch rest' p)
        | [] => Returns None p
        end
      else Returns (Some msg) (set_ch rest p)
  | [] =>
      if stop_closed p then
        match ch p with
        | msg' :: rest' => Returns (Some msg') (set_ch rest' p)
        | [] => Returns None p
        end
      else Blocks p
  end.

(** The loop of [fetchMessages] over the reserved messages; it stops at
    the first send that finds the channel full. *)
Fixpoint queueMessages (msgs : list Message) (p : Processor) : outcome unit :=
  match msgs with
  | [] => Returns tt p
  | msg :: rest =>
      match queueMessage msg p with
      | Returns _ p' => queueMessages rest p'
      | Blocks p' => Blocks p'
      end
  end.

(** The rate limiter loop of [worker] on the successive answers of
    [AllowRate]: the delays slept through and the answers left, or [None]
    when the answers run out before one allows. *)
Fixpoint await_rate (answers : list (Duration * bool))
  : option (list Duration * list (Duration * bool)) :=
  match answers with
  | [] => None
  | (delay, allow) :: rest =>
      if allow then Some ([], rest)
      else
        match await_rate rest with
        | Some (slept, more) => Some (delay :: slept, more)
        | None => None
        end
  end.

Section MoreOperations.

Variable E : Env.

Definition Processor_Stats : M Stats :=
  a <- LoadUint32 addr.inFlight ;;
  b <- LoadUint32 addr.deleting ;;
  c <- LoadUint32 addr.processed ;;
  d <- LoadUint32 addr.retries ;;
  e <- LoadUint32 addr.fails ;;
  f <- LoadUint32 addr.avgDuration ;;
  ret {| InFlight := a; Deleting := b; Processed := c; Retries := d;
         Fails := e; AvgDuration := wrap64 (f * Millisecond) |}.

(** [Purge]: the outer [None] is a loop that ran out of [fuel]. *)
Fixpoint Purge (fuel : nat) : M (option (option error)) :=
  match fuel with
  | O => ret None
  | S fuel' =>
      p <- get ;;
      match ch p with
      | msg :: rest =>
          modify (set_ch rest) ;;
          delete E msg None ;;
          Purge fuel'
      | [] => ret (Some None)
      end
  end.

Definition fetchMessages (p : Processor) : outcome (Z * option error) :=
  let (msgs, err) := q_ReserveN E (BufferSize (opt p)) in
  match err with
  | Some e => Returns (0, Some e) p
  | None =>
      match queueMessages msgs p with
      | Returns _ p' => Returns (Z.of_nat (List.length msgs), None) p'
      | Blocks p' => Blocks p'
      end
  end.

(** [worker]: [limiter] is [None] when [p.opt.RateLimiter] is nil and
    otherwise the answers [AllowRate] is going to give; [pick_stop] gives
    the case of the [select] at each turn of the loop.  The worker
    returns, or is parked in [dequeueMessage]; the outer [None] is a loop
    that ran out of [fuel] or of limiter answers.  Time spent sleeping is
    not recorded. *)
Fixpoint worker (fuel : nat) (limiter : option (list (Duration * bool)))
  (pick_stop : nat -> bool) (p : Processor) : option (outcome unit) :=
  match fuel with
  | O => None
  | S fuel' =>
      match dequeueMessage (pick_stop fuel') p with
      | Blocks p' => Some (Blocks p')
      | Returns None p' => Some (Returns tt p')
      | Returns (Some msg) p' =>
          match limiter with
          | None =>
              let (_, p'') := Process E msg p' in
              worker fuel' None pick_stop p''
          | Some answers =>
              match await_rate answers with
              | None => None
              | Some (_, more) =>
                  let (_, p'') := Process E msg p' in
                  worker fuel' (Some more) pick_stop p''
              end
          end
      end
  end.

End MoreOperations.

(** The dispatches of one worker on the messages [msgs], in order. *)
Definition dispatch_all (E : Env) (msgs : list Message) (p : Processor)
  : Processor :=
  fold_left (fun q msg => snd (Process E msg q)) msgs p.

(** All [uint32] words of the processor hold 32-bit values. *)
Definition in_range (p : Processor) : Prop :=
  forall a, 0 <= peek a p < two32.

(** Terminal transitions on a trace: releases and deletes together. *)
Definition terminals (t : list event) : nat := (releases t + deletes t)%nat.

(** A handler that succeeds on every message. *)
Definition succeeding_env : Env :=
  {| handler := fun _ => None;
     fallbackHandler := None;
     q_Release := fun _ _ => None;
     q_DeleteBatch := fun _ => None;
     q_ReserveN := fun n => ([job 0 1; job 0 1], None);
     delBatch_Wait := None;
     since := fun _ => 5 * Millisecond;
     ewma := fun avg _ => avg |}.

(** A handler that fails and a fallback handler that fails too. *)
Definition failing_fallback_env : Env :=
  {| handler := fun _ => Some (ErrorString "boom");
     fallbackHandler := Some (fun _ => Some (ErrorString "fallback boom"));
     q_Release := fun _ _ => None;
     q_DeleteBatch := fun _ => None;
     q_ReserveN := fun _ => ([], Some ErrNotSupported);
     delBatch_Wait := None;
     since := fun _ => 5 * Millisecond;
     ewma := fun avg _ => avg |}.

(** * Properties *)

(** ** Machine integers *)

Section MachineIntegers.

Lemma two32_eq : two32 = 4294967296.
Proof. reflexivity. Qed.

Lemma two63_eq : two63 = 9223372036854775808.
Proof. reflexivity. Qed.

Lemma two64_eq : two64 = 18446744073709551616.
Proof. reflexivity. Qed.

Lemma uint32_range (z : Z) : 0 <= uint32 z < two32.
Proof. unfold uint32. apply Z.mod_pos_bound. reflexivity. Qed.

Lemma uint32_small (z : Z) : 0 <= z < two32 -> uint32 z = z.
Proof. intros H. unfold uint32. now apply Z.mod_small. Qed.

Lemma wrap64_small (z : Z) : - two63 <= z < two63 -> wrap64 z = z.
Proof.
  intros H. unfold wrap64. rewrite two63_eq, two64_eq in *.
  rewrite Z.mod_small; lia.
Qed.

Lemma testbit_above32 (x n : Z) :
  0 <= x < two32 -> 32 <= n -> Z.testbit x n = false.
Proof.
  intros Hx Hn.
  rewrite <- (Z.mod_small x (2 ^ 32)) by exact Hx.
  apply Z.mod_pow2_bits_high. lia.
Qed.

(** On a [uint32], [^x] is [2^32 - 1 - x]. *)
Lemma not32_complement (x : Z) :
  0 <= x < two32 -> not32 x = two32 - 1 - x.
Proof.
  intros Hx. unfold not32.
  change (two32 - 1) with (Z.ones 32).
  assert (Hdisj : Z.land x (Z.lxor x (Z.ones 32)) = 0).
  { apply Z.bits_inj'. intros n Hn.
    rewrite Z.land_spec, Z.lxor_spec, Z.bits_0.
    destruct (Z.ltb_spec n 32) as [Hlt | Hge].
    - rewrite Z.ones_spec_low by lia. now destruct (Z.testbit x n).
    - now rewrite (testbit_above32 x n Hx Hge). }
  apply Z.add_nocarry_lxor in Hdisj.
  rewrite <- Z.lxor_assoc, Z.lxor_nilpotent, Z.lxor_0_l in Hdisj.
  change (Z.ones 32) with (two32 - 1) in *. lia.
Qed.

End MachineIntegers.

(** ** Batched deletion *)

Section BatchedDeletion.

Variable E : Env.

(** Adding the complement of [n - 1] subtracts [n] modulo [2^32]. *)
Lemma add_not32_pred (d n : Z) :
  uint32 (d + not32 (uint32 (n - 1))) = uint32 (d - n).
Proof.
  rewrite not32_complement by apply uint32_range.
  unfold uint32. rewrite two32_eq.
  Z.div_mod_to_equations. lia.
Qed.

Lemma not32_pred_neg (n : Z) : not32 (uint32 (n - 1)) = uint32 (- n).
Proof.
  rewrite not32_complement by apply uint32_range.
  unfold uint32. rewrite two32_eq.
  Z.div_mod_to_equations. lia.
Qed.

Lemma deleteBatch_deleting (msgs : list Message) (p : Processor) :
  deleting (snd (deleteBatch E msgs p))
  = uint32 (deleting p + not32 (uint32 (Z.of_nat (List.length msgs) - 1))).
Proof.
  unfold deleteBatch, log_Printf, emit, modify, AddUint32, bind, ret.
  simpl. destruct (q_DeleteBatch E msgs); reflexivity.
Qed.

(** C9: for every non-empty batch, whatever [Queuer.DeleteBatch] answers,
    the flush function [deleteBatch] leaves [deleting] decremented by
    exactly the batch size modulo [2^32]: the added word
    [^uint32(len(batch) - 1)] is the two's complement of the batch size, and
    adding it is subtracting the batch size on the 32-bit counter. *)
Theorem deleteBatch_decrements_by_batch_size
  (msgs : list Message) (p : Processor) :
  msgs <> [] ->
  let n := Z.of_nat (List.length msgs) in
  not32 (uint32 (n - 1)) = uint32 (- n) /\
  uint32 (deleting p + not32 (uint32 (n - 1))) = uint32 (deleting p - n) /\
  deleting (snd (deleteBatch E msgs p)) = uint32 (deleting p - n).
Proof.
  intros _ n. subst n. split; [| split].
  - apply not32_pred_neg.
  - apply add_not32_pred.
  - rewrite deleteBatch_deleting. apply add_not32_pred.
Qed.

End BatchedDeletion.

(** C9 at a batch of three messages and a backend whose [DeleteBatch]
    fails: [deleting] goes from 5 to 2. *)
Lemma deleteBatch_decrements_by_batch_size_witness :
  [job 0 1; job 0 2; job 0 3] <> [] /\
  q_DeleteBatch flush_error_env [job 0 1; job 0 2; job 0 3] <> None /\
  deleting
    (snd (deleteBatch flush_error_env [job 0 1; job 0 2; job 0 3]
            (poke addr.deleting 5 (New sample_opt))))
  = 2.
Proof.
  split; [discriminate | split; [discriminate |]].
  destruct (deleteBatch_decrements_by_batch_size flush_error_env
              [job 0 1; job 0 2; job 0 3]
              (poke addr.deleting 5 (New sample_opt)))
    as (_ & _ & H); [discriminate |].
  rewrite H. reflexivity.
Defined.

(** ** The backoff calculator *)

Section Backoff.

Lemma maxBackoff_eq : maxBackoff = 43200000000000.
Proof. reflexivity. Qed.

(** The clamp: no backoff exceeds [maxBackoff]. *)
Lemma exponentialBackoff_le_max (b : Duration) (k : Z) :
  exponentialBackoff b k <= maxBackoff.
Proof.
  unfold exponentialBackoff.
  destruct (Z.gtb_spec (shl64 b (uint64 (k - 1))) maxBackoff); lia.
Qed.

Lemma shl64_exact (b n : Z) :
  0 <= b -> 0 <= n -> b * 2 ^ n < two63 ->
  shl64 b (uint64 n) = b * 2 ^ n.
Proof.
  intros Hb Hn Hlt.
  destruct (Z.eq_dec b 0) as [-> | Hnz].
  - unfold shl64. rewrite Z.shiftl_0_l.
    destruct (uint64 n <? 64); reflexivity.
  - assert (Hn63 : n < 63).
    { destruct (Z.lt_ge_cases n 63) as [H | H]; [exact H | exfalso].
      assert (2 ^ 63 <= 2 ^ n) by (apply Z.pow_le_mono_r; lia).
      unfold two63 in Hlt. nia. }
    unfold uint64. rewrite Z.mod_small by (rewrite two64_eq; lia).
    unfold shl64.
    destruct (Z.ltb_spec n 64) as [_ | H]; [| lia].
    rewrite Z.shiftl_mul_pow2 by exact Hn.
    apply wrap64_small.
    assert (0 <= 2 ^ n) by (apply Z.pow_nonneg; lia).
    rewrite two63_eq in *. nia.
Qed.

(** Where the shift does not overflow, the code computes
    [min(b * 2^(k-1), maxBackoff)]. *)
Lemma exponentialBackoff_exact (b : Duration) (k : Z) :
  0 <= b -> 1 <= k -> b * 2 ^ (k - 1) < two63 ->
  exponentialBackoff b k = exp_backoff_spec b k.
Proof.
  intros Hb Hk Hlt.
  unfold exponentialBackoff, exp_backoff_spec.
  rewrite shl64_exact by lia.
  destruct (Z.gtb_spec (b * 2 ^ (k - 1)) maxBackoff); lia.
Qed.

(** Where the next shift does not overflow either, the backoff is
    monotone in the retry count. *)
Lemma exponentialBackoff_monotone (b : Duration) (k : Z) :
  0 <= b -> 1 <= k -> b * 2 ^ k < two63 ->
  exponentialBackoff b k <= exponentialBackoff b (k + 1) <= maxBackoff.
Proof.
  intros Hb Hk Hlt.
  split; [| apply exponentialBackoff_le_max].
  assert (Hpow : 2 ^ k = 2 * 2 ^ (k - 1)).
  { replace k with (Z.succ (k - 1)) at 1 by lia.
    apply Z.pow_succ_r. lia. }
  assert (0 <= 2 ^ (k - 1)) by (apply Z.pow_nonneg; lia).
  rewrite (exponentialBackoff_exact b k) by nia.
  rewrite (exponentialBackoff_exact b (k + 1))
    by (replace (k + 1 - 1) with k by lia; lia).
  unfold exp_backoff_spec. replace (k + 1 - 1) with k by lia.
  apply Z.min_le_compat_r. nia.
Qed.

(** C4, where the code leaves the formula: with a base of one second the
    shift overflows the 64-bit duration at retry 35.  Retry 34 is clamped
    to 12 hours, retry 35 gives a negative duration, although
    [min(b * 2^34, maxBackoff)] is 12 hours; the backoff is not monotone
    there.  A message reserved 35 times under a retry limit of 100 is
    released with that negative delay. *)
Theorem exponentialBackoff_overflow_at_35 :
  exponentialBackoff Second 34 = maxBackoff /\
  exponentialBackoff Second 35 = -1266874889709551616 /\
  exp_backoff_spec Second 35 = maxBackoff /\
  ~ exponentialBackoff Second 34 <= exponentialBackoff Second 35 /\
  trace (snd (Process failing_env (job 0 35) (New patient_opt)))
  = [EvRelease (job 0 35) (-1266874889709551616);
     EvLog (LogRetry (-1266874889709551616) (ErrorString "boom"));
     EvHandle (job 0 35)].
Proof.
  repeat split; try (vm_compute; congruence).
Qed.

End Backoff.

(** ** Handler dispatcher: release, delete and Process *)

#[local] Arguments uint32 : simpl never.
#[local] Arguments not32 : simpl never.
#[local] Arguments wrap64 : simpl never.
#[local] Arguments exponentialBackoff : simpl never.
#[local] Arguments Z.quot : simpl never.
#[local] Arguments Z.mul : simpl never.
#[local] Arguments Z.add : simpl never.

Ltac unfold_ops :=
  unfold after_handler in *;
  unfold Process, release, releaseBackoff, delete, deleteBatch, resetPause,
    paused, updateAvgDuration, delBatch_Add, log_Printf,
    emit, modify, get, AddUint32, StoreUint32, LoadUint32,
    CompareAndSwapUint32, bind, ret,
    releases, deletes, handled, fallbacks in *.

(** Split on the innermost test of the goal. *)
Ltac split_test :=
  match goal with
  | |- context [match ?x with _ => _ end] =>
      lazymatch x with
      | context [match _ with _ => _ end] => fail
      | _ => destruct x eqn:?
      end
  end.

(** Unfold the operations and split on every test they make. *)
Ltac exec :=
  unfold_ops; simpl in *; repeat (split_test; simpl in *).

Section Dispatcher.

Variable E : Env.

Lemma decrement_word (x : Z) : uint32 (x + not32 (uint32 0)) = uint32 (x - 1).
Proof. exact (add_not32_pred x 1). Qed.

(** *** release *)

Lemma release_inFlight msg reason p :
  inFlight (snd (release E msg reason p)) = uint32 (inFlight p - 1).
Proof. rewrite <- decrement_word. exec; reflexivity. Qed.

Lemma release_counts msg reason p :
  releases (trace (snd (release E msg reason p))) = S (releases (trace p)) /\
  deletes (trace (snd (release E msg reason p))) = deletes (trace p) /\
  handled (trace (snd (release E msg reason p))) = handled (trace p) /\
  fallbacks (trace (snd (release E msg reason p))) = fallbacks (trace p).
Proof. exec; repeat split; reflexivity. Qed.

Lemma release_frame msg reason p :
  let p' := snd (release E msg reason p) in
  opt p' = opt p /\ errCount p' = errCount p /\
  retries p' = retries p /\ fails p' = fails p /\
  processed p' = processed p /\ deleting p' = deleting p /\
  delBatch p' = delBatch p /\ ch p' = ch p.
Proof. exec; repeat split; reflexivity. Qed.

(** *** delete *)

Lemma delete_inFlight msg reason p :
  inFlight (snd (delete E msg reason p)) = uint32 (inFlight p - 1).
Proof. rewrite <- decrement_word. exec; reflexivity. Qed.

Lemma delete_counts msg reason p :
  releases (trace (snd (delete E msg reason p))) = releases (trace p) /\
  deletes (trace (snd (delete E msg reason p))) = S (deletes (trace p)) /\
  handled (trace (snd (delete E msg reason p))) = handled (trace p).
Proof. exec; repeat split; reflexivity. Qed.

Lemma delete_frame msg reason p :
  let p' := snd (delete E msg reason p) in
  opt p' = opt p /\ retries p' = retries p /\ fails p' = fails p /\
  processed p' = processed p /\
  deleting p' = uint32 (deleting p + 1) /\
  delBatch p' = delBatch p ++ [msg] /\ ch p' = ch p.
Proof. exec; repeat split; reflexivity. Qed.

Lemma delete_failure_errCount msg err p :
  errCount (snd (delete E msg (Some err) p)) = errCount p.
Proof. exec; reflexivity. Qed.

Lemma delete_fallback msg err p :
  fallbacks (trace (snd (delete E msg (Some err) p)))
  = match fallbackHandler E with
    | Some _ => S (fallbacks (trace p))
    | None => fallbacks (trace p)
    end.
Proof. exec; reflexivity. Qed.

(** *** The state after the handler call *)

Lemma after_handler_frame msg p :
  let q := after_handler E msg p in
  opt q = opt p /\ inFlight q = inFlight p /\ errCount q = errCount p /\
  delayCount q = delayCount p /\ delaySec q = delaySec p /\
  retries q = retries p /\ fails q = fails p /\
  processed q = processed p /\ deleting q = deleting p /\
  trace q = EvHandle msg :: trace p.
Proof. exec; repeat split; reflexivity. Qed.

(** *** The four ways through Process *)

Lemma Process_delayed msg p :
  0 < Delay msg ->
  Process E msg p = (None, snd (release E msg None p)).
Proof.
  intros H. unfold Process.
  destruct (Z.gtb_spec (Delay msg) 0); [| lia].
  unfold bind, ret. now destruct (release E msg None p).
Qed.

Lemma Process_success msg p :
  Delay msg <= 0 -> handler E msg = None ->
  Process E msg p
  = (None,
     snd (delete E msg None
            (snd (AddUint32 addr.processed 1 (after_handler E msg p))))).
Proof.
  intros H Hh. unfold Process.
  destruct (Z.gtb_spec (Delay msg) 0); [lia |].
  rewrite Hh. exec; reflexivity.
Qed.

Lemma Process_retry msg err p :
  Delay msg <= 0 -> handler E msg = Some err ->
  ReservedCount msg < RetryLimit (opt p) ->
  Process E msg p
  = (Some err,
     snd (release E msg (Some err)
            (snd (AddUint32 addr.retries 1 (after_handler E msg p))))).
Proof.
  intros H Hh Hrc. unfold Process.
  destruct (Z.gtb_spec (Delay msg) 0); [lia |].
  rewrite Hh. unfold bind at 1 2. unfold emit, modify.
  unfold bind at 1. unfold updateAvgDuration at 1. unfold_ops. simpl.
  destruct (avgDuration p =? avgDuration p); simpl;
    (destruct (Z.ltb_spec (ReservedCount msg) (RetryLimit (opt p))); [| lia]);
    exec; reflexivity.
Qed.

Lemma Process_fail msg err p :
  Delay msg <= 0 -> handler E msg = Some err ->
  RetryLimit (opt p) <= ReservedCount msg ->
  Process E msg p
  = (Some err,
     snd (delete E msg (Some err)
            (snd (AddUint32 addr.fails 1 (after_handler E msg p))))).
Proof.
  intros H Hh Hrc. unfold Process.
  destruct (Z.gtb_spec (Delay msg) 0); [lia |].
  rewrite Hh. unfold bind at 1 2. unfold emit, modify.
  unfold bind at 1. unfold updateAvgDuration at 1. unfold_ops. simpl.
  destruct (avgDuration p =? avgDuration p); simpl;
    (destruct (Z.ltb_spec (ReservedCount msg) (RetryLimit (opt p))); [lia |]);
    exec; reflexivity.
Qed.

End Dispatcher.

(** ** The terminal transition of a dispatch *)

Section Terminal.

Variable E : Env.

Lemma AddUint32_frame a d p :
  let q := snd (AddUint32 a d p) in
  opt q = opt p /\ trace q = trace p /\ ch q = ch p /\
  delBatch q = delBatch p /\
  peek a q = uint32 (peek a p + d) /\
  (forall b, b <> a -> peek b q = peek b p).
Proof.
  simpl. repeat split; try reflexivity.
  - now destruct a.
  - intros b Hb. destruct a, b; try reflexivity; now elim Hb.
Qed.

(** What a dispatch does to the trace and to [inFlight], path by path. *)
Lemma Process_terminal msg p :
  let p' := snd (Process E msg p) in
  (releases (trace p') = S (releases (trace p)) /\
   deletes (trace p') = deletes (trace p) \/
   releases (trace p') = releases (trace p) /\
   deletes (trace p') = S (deletes (trace p))) /\
  inFlight p' = uint32 (inFlight p - 1) /\
  opt p' = opt p.
Proof.
  intros p'. subst p'.
  destruct (Z.lt_ge_cases 0 (Delay msg)) as [Hd | Hd].
  - rewrite Process_delayed by exact Hd. simpl.
    destruct (release_counts E msg None p) as (Hr & Hdel & _).
    destruct (release_frame E msg None p) as (Ho & _).
    rewrite release_inFlight. auto.
  - destruct (after_handler_frame E msg p)
      as (Ho & Hi & _ & _ & _ & _ & _ & _ & _ & Ht).
    destruct (handler E msg) as [err |] eqn:Hh.
    + destruct (Z.lt_ge_cases (ReservedCount msg) (RetryLimit (opt p)))
        as [Hrc | Hrc].
      * rewrite (Process_retry E msg err p Hd Hh Hrc). cbn [snd].
        set (q := snd (AddUint32 addr.retries 1 (after_handler E msg p))).
        destruct (release_counts E msg (Some err) q) as (Hr & Hdel & _).
        destruct (release_frame E msg (Some err) q) as (Hoq & _).
        rewrite release_inFlight, Hr, Hdel, Hoq.
        subst q. simpl. unfold releases, deletes. rewrite Ht, Hi, Ho.
        simpl. auto.
      * rewrite (Process_fail E msg err p Hd Hh Hrc). cbn [snd].
        set (q := snd (AddUint32 addr.fails 1 (after_handler E msg p))).
        destruct (delete_counts E msg (Some err) q) as (Hr & Hdel & _).
        destruct (delete_frame E msg (Some err) q) as (Hoq & _).
        rewrite delete_inFlight, Hr, Hdel, Hoq.
        subst q. simpl. unfold releases, deletes. rewrite Ht, Hi, Ho.
        simpl. auto.
    + rewrite (Process_success E msg p Hd Hh). cbn [snd].
      set (q := snd (AddUint32 addr.processed 1 (after_handler E msg p))).
      destruct (delete_counts E msg None q) as (Hr & Hdel & _).
      destruct (delete_frame E msg None q) as (Hoq & _).
      rewrite delete_inFlight, Hr, Hdel, Hoq.
      subst q. simpl. unfold releases, deletes. rewrite Ht, Hi, Ho.
      simpl. auto.
Qed.

(** C1: every dispatch through [Process] makes exactly one terminal
    transition: either one call of release and none of delete, or one call
    of delete and none of release.  Each of [release] and [delete]
    decrements [inFlight] once, so a dispatch takes the message out of
    [inFlight] exactly once. *)
Theorem Process_exactly_one_terminal (msg : Message) (p : Processor) :
  let p' := snd (Process E msg p) in
  (releases (trace p') = S (releases (trace p)) /\
   deletes (trace p') = deletes (trace p) \/
   releases (trace p') = releases (trace p) /\
   deletes (trace p') = S (deletes (trace p))) /\
  inFlight p' = uint32 (inFlight p - 1) /\
  (forall reason q,
     inFlight (snd (release E msg reason q)) = uint32 (inFlight q - 1)) /\
  (forall reason q,
     inFlight (snd (delete E msg reason q)) = uint32 (inFlight q - 1)).
Proof.
  intros p'. subst p'.
  destruct (Process_terminal msg p) as (Hone & Hin & _).
  repeat split.
  - exact Hone.
  - exact Hin.
  - intros reason q. apply release_inFlight.
  - intros reason q. apply delete_inFlight.
Qed.

End Terminal.

(** ** The release delay *)

Section ReleaseDelay.

Variable E : Env.

(** The delay [release] hands to [Queuer.Release] is the one
    [releaseBackoff] computes. *)
Lemma release_trace msg reason p :
  let (delay, q) := releaseBackoff msg reason p in
  exists l,
    trace (snd (release E msg reason p)) = l ++ EvRelease msg delay :: 
      match reason with
      | Some r => EvLog (LogRetry delay r) :: trace q
      | None => trace q
      end /\
    l = match q_Release E msg delay with
        | Some err => [EvLog (LogReleaseFailed err)]
        | None => []
        end.
Proof.
  unfold release, bind.
  destruct (releaseBackoff msg reason p) as [delay q].
  eexists. split; [| reflexivity].
  unfold log_Printf, emit, modify, AddUint32, ret.
  destruct reason; destruct (q_Release E msg delay); reflexivity.
Qed.



(** C8: a message with a positive [Delay] is released by [Process] with
    reason [nil]; the handler is not called, [Process] returns [nil], and
    [Queuer.Release] receives the message with exactly [msg.Delay]. *)
Theorem Process_delayed_message_released (msg : Message) (p : Processor) :
  0 < Delay msg ->
  let p' := snd (Process E msg p) in
  Process E msg p = (None, snd (release E msg None p)) /\
  fst (releaseBackoff msg None p) = Delay msg /\
  trace p'
  = match q_Release E msg (Delay msg) with
    | Some err =>
        EvLog (LogReleaseFailed err) :: EvRelease msg (Delay msg) :: trace p
    | None => EvRelease msg (Delay msg) :: trace p
    end /\
  handled (trace p') = handled (trace p) /\
  releases (trace p') = S (releases (trace p)) /\
  deletes (trace p') = deletes (trace p).
Proof.
  intros Hd p'. subst p'.
  rewrite (Process_delayed E msg p Hd). cbn [snd].
  destruct (release_counts E msg None p) as (Hr & Hdel & Hh & _).
  repeat split; try assumption.
  - unfold releaseBackoff.
    destruct (Z.gtb_spec (Delay msg) 0); [reflexivity | lia].
  - unfold release, releaseBackoff, bind, ret, log_Printf, emit, modify,
      AddUint32.
    destruct (Z.gtb_spec (Delay msg) 0); [| lia]. simpl.
    destruct (q_Release E msg (Delay msg)); reflexivity.
Qed.

End ReleaseDelay.



(** C8 at a message scheduled ten seconds ahead. *)
Lemma Process_delayed_message_released_witness :
  0 < Delay (job (10 * Second) 1) /\
  trace (snd (Process failing_env (job (10 * Second) 1) (New sample_opt)))
  = [EvRelease (job (10 * Second) 1) (10 * Second)].
Proof.
  split; [reflexivity |].
  destruct (Process_delayed_message_released failing_env
              (job (10 * Second) 1) (New sample_opt))
    as (_ & _ & Ht & _); [reflexivity |].
  exact Ht.
Defined.

(** ** Retrying and failing *)

Section Retry.

Variable E : Env.

Lemma with_ReservedCount_same msg :
  with_ReservedCount msg (ReservedCount msg) = msg.
Proof. now destruct msg. Qed.

Lemma reserve_again_with msg rc :
  with_ReservedCount (reserve_again msg) rc = with_ReservedCount msg rc.
Proof. reflexivity. Qed.

Lemma uint32_add_idemp (a b : Z) : uint32 (uint32 a + b) = uint32 (a + b).
Proof. unfold uint32. apply Z.add_mod_idemp_l. discriminate. Qed.

(** A retry: the state after [Process] on a failure below the limit. *)
Lemma Process_retry_state msg err p :
  Delay msg <= 0 -> handler E msg = Some err ->
  ReservedCount msg < RetryLimit (opt p) ->
  let p' := snd (Process E msg p) in
  fst (Process E msg p) = Some err /\
  retries p' = uint32 (retries p + 1) /\ fails p' = fails p /\
  errCount p' = errCount p /\ opt p' = opt p /\
  releases (trace p') = S (releases (trace p)) /\
  deletes (trace p') = deletes (trace p) /\
  fallbacks (trace p') = fallbacks (trace p).
Proof.
  intros Hd Hh Hrc p'. subst p'.
  rewrite (Process_retry E msg err p Hd Hh Hrc). cbn [fst snd].
  destruct (after_handler_frame E msg p)
    as (Ho & _ & He & _ & _ & Hre & Hf & _ & _ & Ht).
  set (q := snd (AddUint32 addr.retries 1 (after_handler E msg p))).
  destruct (release_counts E msg (Some err) q) as (Hr & Hdel & _ & Hfb).
  destruct (release_frame E msg (Some err) q)
    as (Hoq & Heq & Hrq & Hfq & _).
  rewrite Hr, Hdel, Hfb, Hoq, Heq, Hrq, Hfq.
  subst q. simpl. unfold releases, deletes, fallbacks.
  rewrite Ht, Ho, He, Hre, Hf. simpl. repeat split; reflexivity.
Qed.

(** A failure: the state after [Process] on a failure at the limit. *)
Lemma Process_fail_state msg err p :
  Delay msg <= 0 -> handler E msg = Some err ->
  RetryLimit (opt p) <= ReservedCount msg ->
  let p' := snd (Process E msg p) in
  fst (Process E msg p) = Some err /\
  retries p' = retries p /\ fails p' = uint32 (fails p + 1) /\
  errCount p' = errCount p /\ opt p' = opt p /\
  releases (trace p') = releases (trace p) /\
  deletes (trace p') = S (deletes (trace p)) /\
  fallbacks (trace p')
  = match fallbackHandler E with
    | Some _ => S (fallbacks (trace p))
    | None => fallbacks (trace p)
    end.
Proof.
  intros Hd Hh Hrc p'. subst p'.
  rewrite (Process_fail E msg err p Hd Hh Hrc). cbn [fst snd].
  destruct (after_handler_frame E msg p)
    as (Ho & _ & He & _ & _ & Hre & Hf & _ & _ & Ht).
  set (q := snd (AddUint32 addr.fails 1 (after_handler E msg p))).
  destruct (delete_counts E msg (Some err) q) as (Hr & Hdel & _).
  destruct (delete_frame E msg (Some err) q) as (Hoq & Hrq & Hfq & _).
  rewrite Hr, Hdel, Hoq, Hrq, Hfq, delete_failure_errCount, delete_fallback.
  subst q. simpl. unfold releases, deletes, fallbacks.
  rewrite Ht, Ho, He, Hre, Hf. simpl.
  repeat split; reflexivity.
Qed.

(** A message whose handler fails on every delivery is released while
    [ReservedCount < RetryLimit] and deleted on the first delivery at the
    limit. *)
Lemma dispatch_always_failing (fuel : nat) :
  forall msg p,
    Delay msg <= 0 ->
    (forall rc, handler E (with_ReservedCount msg rc) <> None) ->
    Z.max 0 (RetryLimit (opt p) - ReservedCount msg) < Z.of_nat fuel ->
    exists n p',
      dispatch_until_deleted E fuel msg p = Some (n, p') /\
      Z.of_nat n = Z.max 0 (RetryLimit (opt p) - ReservedCount msg) /\
      uint32 (retries p') = uint32 (retries p + Z.of_nat n) /\
      fails p' = uint32 (fails p + 1) /\
      releases (trace p') = (n + releases (trace p))%nat /\
      deletes (trace p') = S (deletes (trace p)) /\
      fallbacks (trace p')
      = match fallbackHandler E with
        | Some _ => S (fallbacks (trace p))
        | None => fallbacks (trace p)
        end.
Proof.
  induction fuel as [| fuel IH]; intros msg p Hd Hfail Hfuel.
  - exfalso. change (Z.of_nat 0) with 0 in Hfuel. lia.
  - assert (Hh : exists err, handler E msg = Some err).
    { specialize (Hfail (ReservedCount msg)).
      rewrite with_ReservedCount_same in Hfail.
      destruct (handler E msg) as [err |]; [now exists err | now elim Hfail]. }
    destruct Hh as [err Hh].
    cbn [dispatch_until_deleted].
    destruct (Z.lt_ge_cases (ReservedCount msg) (RetryLimit (opt p)))
      as [Hrc | Hrc].
    + destruct (Process_retry_state msg err p Hd Hh Hrc)
        as (_ & Hre & Hf & _ & Ho & Hr & Hdel & Hfb).
      destruct (Process E msg p) as [r p1]. cbn [snd] in *.
      rewrite Hr.
      replace (releases (trace p) <? S (releases (trace p)))%nat with true
        by (symmetry; apply Nat.ltb_lt; lia).
      destruct (IH (reserve_again msg) p1) as (n & p' & Hrun & Hn & IHre
        & IHf & IHr & IHdel & IHfb).
      * exact Hd.
      * intros rc. rewrite reserve_again_with. apply Hfail.
      * rewrite Ho. cbn [reserve_again with_ReservedCount ReservedCount].
        lia.
      * rewrite Hrun. exists (S n), p'.
        rewrite Ho in Hn.
        cbn [reserve_again with_ReservedCount ReservedCount] in Hn.
        repeat split.
        -- lia.
        -- rewrite IHre, Hre, uint32_add_idemp. f_equal. lia.
        -- rewrite IHf, Hf. reflexivity.
        -- rewrite IHr, Hr. lia.
        -- rewrite IHdel, Hdel. reflexivity.
        -- rewrite IHfb, Hfb. reflexivity.
    + destruct (Process_fail_state msg err p Hd Hh Hrc)
        as (_ & Hre & Hf & _ & Ho & Hr & Hdel & Hfb).
      destruct (Process E msg p) as [r p1]. cbn [snd] in *.
      rewrite Hr, Nat.ltb_irrefl.
      exists 0%nat, p1. repeat split; try assumption.
      * lia.
      * rewrite Hre. change (Z.of_nat 0) with 0. now rewrite Z.add_0_r.
Qed.

(** C2: when the handler fails on a message, [Process] compares
    [ReservedCount] with [RetryLimit]: below the limit it increments
    [retries] and calls [release(msg, err)]; otherwise it increments
    [fails] and calls [delete(msg, err)], which calls the fallback handler
    when one is configured.  Hence a message whose handler fails on every
    delivery, first reserved with [ReservedCount >= 1] and redelivered with
    the count incremented, is released at most [RetryLimit - 1] times and
    then deleted and passed to the fallback handler if there is one. *)
Theorem failing_message_retried_then_deleted
  (msg : Message) (err : error) (p : Processor) :
  Delay msg <= 0 ->
  handler E msg = Some err ->
  let p' := snd (Process E msg p) in
  (ReservedCount msg < RetryLimit (opt p) ->
     Process E msg p
     = (Some err,
        snd (release E msg (Some err)
               (snd (AddUint32 addr.retries 1 (after_handler E msg p))))) /\
     retries p' = uint32 (retries p + 1) /\ fails p' = fails p /\
     releases (trace p') = S (releases (trace p)) /\
     deletes (trace p') = deletes (trace p)) /\
  (RetryLimit (opt p) <= ReservedCount msg ->
     Process E msg p
     = (Some err,
        snd (delete E msg (Some err)
               (snd (AddUint32 addr.fails 1 (after_handler E msg p))))) /\
     fails p' = uint32 (fails p + 1) /\ retries p' = retries p /\
     deletes (trace p') = S (deletes (trace p)) /\
     releases (trace p') = releases (trace p) /\
     fallbacks (trace p')
     = match fallbackHandler E with
       | Some _ => S (fallbacks (trace p))
       | None => fallbacks (trace p)
       end) /\
  ((forall rc, handler E (with_ReservedCount msg rc) <> None) ->
   1 <= ReservedCount msg ->
   exists n q,
     dispatch_until_deleted E (S (Z.to_nat (RetryLimit (opt p)))) msg p
     = Some (n, q) /\
     (1 <= RetryLimit (opt p) -> Z.of_nat n <= RetryLimit (opt p) - 1) /\
     (RetryLimit (opt p) < 1 -> n = 0%nat) /\
     releases (trace q) = (n + releases (trace p))%nat /\
     deletes (trace q) = S (deletes (trace p)) /\
     fails q = uint32 (fails p + 1) /\
     fallbacks (trace q)
     = match fallbackHandler E with
       | Some _ => S (fallbacks (trace p))
       | None => fallbacks (trace p)
       end).
Proof.
  intros Hd Hh p'. subst p'. split; [| split].
  - intros Hrc.
    destruct (Process_retry_state msg err p Hd Hh Hrc)
      as (_ & Hre & Hf & _ & _ & Hr & Hdel & _).
    split; [exact (Process_retry E msg err p Hd Hh Hrc) |]. auto.
  - intros Hrc.
    destruct (Process_fail_state msg err p Hd Hh Hrc)
      as (_ & Hre & Hf & _ & _ & Hr & Hdel & Hfb).
    split; [exact (Process_fail E msg err p Hd Hh Hrc) |]. auto.
  - intros Hfail Hrc1.
    destruct (dispatch_always_failing (S (Z.to_nat (RetryLimit (opt p))))
                msg p Hd Hfail)
      as (n & q & Hrun & Hn & _ & Hf & Hr & Hdel & Hfb); [lia |].
    exists n, q. repeat split; try assumption; lia.
Qed.

(** C5: the pause controller answers one minute when [errCount] exceeds
    100 and [delayCount] does not.  But a failing handler does not
    increment [errCount]: [Process] leaves it as it was on a failure, and
    no dispatch ever raises it. *)
Theorem errCount_pauses_but_is_not_incremented
  (msg : Message) (err : error) (p : Processor) :
  (threshold < errCount p -> delayCount p <= threshold ->
   fst (paused p) = Minute) /\
  (Delay msg <= 0 -> handler E msg = Some err ->
   errCount (snd (Process E msg p)) = errCount p) /\
  (errCount (snd (Process E msg p)) = errCount p \/
   errCount (snd (Process E msg p)) = 0).
Proof.
  split; [| split].
  - intros He Hd. unfold paused, bind, ret, LoadUint32. simpl.
    destruct (Z.gtb_spec (delayCount p) threshold); [lia |].
    destruct (Z.gtb_spec (errCount p) threshold); [reflexivity | lia].
  - intros Hd Hh.
    destruct (Z.lt_ge_cases (ReservedCount msg) (RetryLimit (opt p)))
      as [Hrc | Hrc].
    + now destruct (Process_retry_state msg err p Hd Hh Hrc)
        as (_ & _ & _ & He & _).
    + now destruct (Process_fail_state msg err p Hd Hh Hrc)
        as (_ & _ & _ & He & _).
  - exec; auto.
Qed.

End Retry.

(** C2 at a handler that always fails, a fallback handler and a retry
    limit of 3: the message is released twice, then deleted and handed to
    the fallback handler. *)
Lemma failing_message_retried_then_deleted_witness :
  exists q,
    dispatch_until_deleted fallback_env 4 (job 0 1) (New sample_opt)
    = Some (2%nat, q) /\
    fails q = 1 /\ retries q = 2 /\
    deletes (trace q) = 1%nat /\ fallbacks (trace q) = 1%nat.
Proof.
  destruct (failing_message_retried_then_deleted fallback_env (job 0 1)
              (ErrorString "boom") (New sample_opt))
    as (_ & _ & H); [discriminate | reflexivity |].
  destruct H as (n & q & Hrun & _ & _ & _ & Hdel & Hf & Hfb);
    [intros rc; discriminate | discriminate |].
  exists q.
  change (S (Z.to_nat (RetryLimit (opt (New sample_opt))))) with 4%nat
    in Hrun.
  rewrite Hrun.
  vm_compute in Hrun. injection Hrun as Hn Hq. subst n.
  split; [reflexivity |]. split; [exact Hf |].
  split; [now subst q |]. split; [exact Hdel | exact Hfb].
Defined.

(** C5 at a first delivery whose handler fails: [errCount] is still 0. *)
Lemma errCount_pauses_but_is_not_incremented_witness :
  errCount (snd (Process failing_env (job 0 1) (New sample_opt))) = 0 /\
  fst (paused (poke addr.errCount 101 (New sample_opt))) = Minute.
Proof.
  destruct (errCount_pauses_but_is_not_incremented failing_env (job 0 1)
              (ErrorString "boom") (New sample_opt)) as (_ & H & _).
  destruct (errCount_pauses_but_is_not_incremented failing_env (job 0 1)
              (ErrorString "boom") (poke addr.errCount 101 (New sample_opt)))
    as (Hp & _ & _).
  split.
  - rewrite H; [reflexivity | discriminate | reflexivity].
  - apply Hp; [reflexivity | discriminate].
Defined.

(** ** Enqueueing *)

Section Enqueue.

(** C10: [Add] and [AddDelay] never hand an error to the caller.  Whenever
    either returns, it returns [nil]; [Add] returns as soon as the channel
    has room, and [AddDelay] with a non-zero delay always returns at
    once. *)
Theorem Add_and_AddDelay_return_nil
  (msg : Message) (d : Duration) (p : Processor) :
  (forall e p', Add msg p = Returns e p' -> e = None) /\
  (forall e p', AddDelay msg d p = Returns e p' -> e = None) /\
  (Z.of_nat (List.length (ch p)) < BufferSize (opt p) ->
   exists p', Add msg p = Returns None p') /\
  (d <> 0 -> exists p', AddDelay msg d p = Returns None p').
Proof.
  assert (HAdd : forall e p', Add msg p = Returns e p' -> e = None).
  { intros e p'. unfold Add.
    destruct (queueMessage msg p); [| discriminate].
    now intros [= <- _]. }
  repeat split.
  - exact HAdd.
  - intros e p'. unfold AddDelay.
    destruct (d =? 0); [apply HAdd |]. simpl. now intros [= <- _].
  - intros Hroom. unfold Add, queueMessage. simpl.
    destruct (Z.ltb_spec (Z.of_nat (List.length (ch p))) (BufferSize (opt p)));
      [| lia].
    eexists. reflexivity.
  - intros Hd. unfold AddDelay.
    destruct (Z.eqb_spec d 0); [contradiction |].
    simpl. eexists. reflexivity.
Qed.

End Enqueue.

(** C10 at a fresh processor with a buffer of 8. *)
Lemma Add_and_AddDelay_return_nil_witness :
  (exists p', Add (job 0 1) (New sample_opt) = Returns None p') /\
  (exists p',
     AddDelay (job 0 1) (200 * Millisecond) (New sample_opt)
     = Returns None p').
Proof.
  destruct (Add_and_AddDelay_return_nil (job 0 1) (200 * Millisecond)
              (New sample_opt)) as (_ & _ & HA & HD).
  split; [apply HA; reflexivity | apply HD; discriminate].
Defined.

(** ** Lifecycle: Stop and ProcessOne *)

Section Lifecycle.

Variable E : Env.

Lemma delBatch_Wait'_result p : fst (delBatch_Wait' E p) = delBatch_Wait E.
Proof.
  unfold delBatch_Wait', bind, get, ret.
  destruct (delBatch p) as [| m l]; [reflexivity |].
  unfold modify.
  destruct (deleteBatch E (m :: l) (set_delBatch [] p)).
  reflexivity.
Qed.


Lemma stopWorkersTimeout_started timeout sel p :
  _started p = 1 ->
  _started (snd (stopWorkersTimeout E timeout sel p)) = 0.
Proof.
  intros Hs. unfold stopWorkersTimeout, bind, CompareAndSwapUint32. simpl.
  rewrite Hs. simpl. destruct sel; [reflexivity |].
  unfold delBatch_Wait', bind, get, ret, modify. simpl.
  destruct (delBatch p); [reflexivity |].
  unfold deleteBatch, log_Printf, emit, modify, AddUint32, bind, ret. simpl.
  destruct (q_DeleteBatch E (m :: l)); reflexivity.
Qed.


(** What [reserveOne] answers on an empty channel. *)
Lemma reserveOne_empty p :
  ch p = [] ->
  reserveOne E p
  = match snd (q_ReserveN E 1) with
    | Some ErrNotSupported | None =>
        match fst (q_ReserveN E 1) with
        | [] => (inr (ErrorString "queue is empty"), p)
        | m :: _ => (inl m, snd (AddUint32 addr.inFlight 1 p))
        end
    | Some e => (inr e, p)
    end.
Proof.
  intros Hch. unfold reserveOne, bind, get, ret. rewrite Hch.
  destruct (q_ReserveN E 1) as [msgs [[] |]]; destruct msgs; reflexivity.
Qed.

(** C7, amended: [ProcessOne] first reads [ch] without blocking; on an
    empty channel it calls [Queuer.ReserveN(1)]; an error of that call
    other than [ErrNotSupported] is returned as it is; otherwise, without a
    message, the error is "queue is empty"; otherwise [Process] runs on the
    message, then [Batcher.Wait], and the first non-nil error of the two is
    returned. *)
Theorem ProcessOne_cases (p : Processor) :
  (forall msg rest,
     ch p = msg :: rest ->
     ProcessOne E p = then_Wait E (Process E msg (set_ch rest p))) /\
  (forall msgs e,
     ch p = [] -> q_ReserveN E 1 = (msgs, Some e) -> e <> ErrNotSupported ->
     ProcessOne E p = (Some e, p)) /\
  (forall err,
     ch p = [] -> q_ReserveN E 1 = ([], err) ->
     err = None \/ err = Some ErrNotSupported ->
     ProcessOne E p = (Some (ErrorString "queue is empty"), p)) /\
  (forall m ms err,
     ch p = [] -> q_ReserveN E 1 = (m :: ms, err) ->
     err = None \/ err = Some ErrNotSupported ->
     ProcessOne E p
     = then_Wait E (Process E m (snd (AddUint32 addr.inFlight 1 p)))) /\
  (forall r q,
     fst (then_Wait E (r, q)) = first_error r (delBatch_Wait E)).
Proof.
  repeat split.
  - intros msg rest Hch.
    unfold ProcessOne, then_Wait, first_error, bind at 1.
    unfold reserveOne, bind at 1, get. rewrite Hch.
    unfold bind at 1, modify, ret, bind.
    destruct (Process E msg (set_ch rest p)) as [retErr p1].
    destruct (delBatch_Wait' E p1) as [werr p2].
    now destruct werr, retErr.
  - intros msgs e Hch Hq Hne.
    unfold ProcessOne, bind at 1. rewrite (reserveOne_empty p Hch), Hq.
    destruct e; try reflexivity. now elim Hne.
  - intros err Hch Hq Herr.
    unfold ProcessOne, bind at 1. rewrite (reserveOne_empty p Hch), Hq.
    now destruct Herr as [-> | ->].
  - intros m ms err Hch Hq Herr.
    unfold ProcessOne, bind at 1. rewrite (reserveOne_empty p Hch), Hq.
    unfold then_Wait, first_error, bind, ret.
    destruct Herr as [-> | ->]; cbn [fst snd];
      destruct (Process E m (snd (AddUint32 addr.inFlight 1 p)))
        as [retErr p1];
      destruct (delBatch_Wait' E p1) as [werr p2];
      now destruct werr, retErr.
  - intros r q. unfold then_Wait.
    pose proof (delBatch_Wait'_result q) as Hw.
    destruct (delBatch_Wait' E q) as [werr p2]. simpl in *. now subst.
Qed.

End Lifecycle.


(** C7 as stated fails: the channel is empty, [ReserveN(1)] yields no
    message, and [ProcessOne] returns the backend error instead of "queue
    is empty". *)
Lemma ProcessOne_reserve_error :
  ch (New sample_opt) = [] /\
  fst (q_ReserveN reserve_error_env 1) = [] /\
  fst (ProcessOne reserve_error_env (New sample_opt))
  = Some (ErrorString "connection refused") /\
  fst (ProcessOne reserve_error_env (New sample_opt))
  <> Some (ErrorString "queue is empty").
Proof.
  repeat split; discriminate.
Qed.

(** C7, amended, on an empty queue and on a buffered message. *)
Lemma ProcessOne_cases_witness :
  fst (ProcessOne failing_env (New sample_opt))
  = Some (ErrorString "queue is empty") /\
  fst (ProcessOne reserve_error_env (New sample_opt))
  = Some (ErrorString "connection refused") /\
  fst (ProcessOne flush_error_env (set_ch [job 0 1] (New sample_opt)))
  = Some (ErrorString "flush failed").
Proof.
  destruct (ProcessOne_cases failing_env (New sample_opt))
    as (_ & _ & H1 & _).
  destruct (ProcessOne_cases reserve_error_env (New sample_opt))
    as (_ & H2 & _).
  destruct (ProcessOne_cases flush_error_env
              (set_ch [job 0 1] (New sample_opt))) as (H3 & _).
  split; [| split].
  - rewrite (H1 None); [reflexivity | reflexivity | reflexivity | now left].
  - rewrite (H2 [] (ErrorString "connection refused"));
      [reflexivity | reflexivity | reflexivity | discriminate].
  - rewrite (H3 (job 0 1) []); reflexivity.
Defined.

(** * Further properties *)

(** ** Backoff outside and inside the range of the shift *)

Section BackoffRange.

(** X1: where the shift does not overflow ([0 <= b], [k >= 1] and
    [b * 2^k < 2^63]) the backoff is [min(b * 2^(k-1), maxBackoff)], it
    is monotone in the retry count, it never exceeds [maxBackoff] and it
    is never shorter than [min(b, maxBackoff)]. *)
Theorem exponentialBackoff_without_overflow (b : Duration) (k : Z) :
  0 <= b -> 1 <= k -> b * 2 ^ k < two63 ->
  exponentialBackoff b k = Z.min (b * 2 ^ (k - 1)) maxBackoff /\
  exponentialBackoff b k <= exponentialBackoff b (k + 1) <= maxBackoff /\
  Z.min b maxBackoff <= exponentialBackoff b k.
Proof.
  intros Hb Hk Hlt.
  assert (Hpow : 2 ^ k = 2 * 2 ^ (k - 1)).
  { replace k with (Z.succ (k - 1)) at 1 by lia.
    apply Z.pow_succ_r. lia. }
  assert (Hpos : 0 < 2 ^ (k - 1)) by (apply Z.pow_pos_nonneg; lia).
  assert (Hex : exponentialBackoff b k = exp_backoff_spec b k).
  { apply exponentialBackoff_exact; nia. }
  split; [exact Hex |].
  split; [now apply exponentialBackoff_monotone |].
  rewrite Hex. unfold exp_backoff_spec.
  apply Z.min_le_compat_r. nia.
Qed.

(** X2: a retry count outside the range of the shift gives a backoff of
    zero: for [retry <= 0] the count [uint(retry - 1)] wraps to a huge
    shift, and for [retry >= 65] the shift is at least 64; either way all
    bits are shifted out.  So a failing message whose [ReservedCount] is 0
    or less (no [Delayer], no [Delay]) is released with no delay at
    all. *)
Theorem exponentialBackoff_zero_outside_shift_range
  (dur : Duration) (retry : Z) (msg : Message) (s : string) (p : Processor) :
  - two63 <= retry < two63 ->
  retry <= 0 \/ 65 <= retry ->
  exponentialBackoff dur retry = 0 /\
  (ReservedCount msg = retry -> Delay msg <= 0 ->
   fst (releaseBackoff msg (Some (ErrorString s)) p) = 0).
Proof.
  intros Hrange Hout.
  assert (H0 : forall d, exponentialBackoff d retry = 0).
  { intros d. unfold exponentialBackoff, shl64, uint64.
    rewrite two63_eq in Hrange.
    assert (Hbig : 64 <= (retry - 1) mod two64).
    { rewrite two64_eq. Z.div_mod_to_equations. lia. }
    destruct (Z.ltb_spec ((retry - 1) mod two64) 64); [lia |].
    reflexivity. }
  split; [apply H0 |].
  intros Hrc Hd. unfold releaseBackoff. cbn [asDelayer].
  destruct (Z.gtb_spec (Delay msg) 0); [lia |].
  unfold bind, get, ret. cbn [fst]. rewrite Hrc. apply H0.
Qed.

End BackoffRange.

(** X1 at a base of three seconds and the fourth retry: 24 seconds. *)
Lemma exponentialBackoff_without_overflow_witness :
  exponentialBackoff (3 * Second) 4 = 24 * Second /\
  exponentialBackoff (3 * Second) 4 <= exponentialBackoff (3 * Second) 5.
Proof.
  destruct (exponentialBackoff_without_overflow (3 * Second) 4)
    as (Hex & [Hmono _] & _); [discriminate | discriminate | reflexivity |].
  split; [rewrite Hex; reflexivity | exact Hmono].
Defined.

(** X2 at a message that was never reserved. *)
Lemma exponentialBackoff_zero_outside_shift_range_witness :
  exponentialBackoff (3 * Second) 0 = 0 /\
  fst (releaseBackoff (job 0 0) (Some (ErrorString "boom"))
         (New sample_opt)) = 0.
Proof.
  destruct (exponentialBackoff_zero_outside_shift_range (3 * Second) 0
              (job 0 0) "boom" (New sample_opt))
    as (H0 & Hrel); [split; [discriminate | reflexivity] | now left |].
  split; [exact H0 | apply Hrel; [reflexivity | discriminate]].
Defined.

(** ** The pause controller *)

Section Pause.

Variable E : Env.

Lemma delete_success_pause msg p :
  errCount (snd (delete E msg None p)) = 0 /\
  delayCount (snd (delete E msg None p)) = 0 /\
  trace (snd (delete E msg None p)) = EvBatchAdd msg :: trace p.
Proof. exec; repeat split; reflexivity. Qed.

Lemma paused_zero p :
  errCount p = 0 -> delayCount p = 0 -> fst (paused p) = 0.
Proof.
  intros He Hd. unfold paused, bind, ret, LoadUint32.
  cbv beta iota. cbn [peek]. rewrite Hd. cbv beta iota.
  change (0 >? threshold) with false. cbv beta iota. cbn [peek].
  rewrite He. reflexivity.
Qed.

(** X3: [paused] only reads the processor.  With 32-bit words the pause
    is never negative and at most [2^32 - 1] seconds; more than 100
    delayed failures give a pause of [delaySec] seconds, whatever
    [errCount] holds, and with both counts at 100 or less there is no
    pause. *)
Theorem paused_bounds_and_precedence (p : Processor) :
  in_range p ->
  snd (paused p) = p /\
  0 <= fst (paused p) <= (two32 - 1) * Second /\
  (threshold < delayCount p -> fst (paused p) = delaySec p * Second) /\
  (delayCount p <= threshold -> errCount p <= threshold ->
   fst (paused p) = 0).
Proof.
  intros Hr.
  pose proof (Hr addr.delaySec) as Hds. cbn [peek] in Hds.
  assert (Hw : wrap64 (delaySec p * Second) = delaySec p * Second).
  { apply wrap64_small. rewrite two63_eq. rewrite two32_eq in Hds.
    change Second with 1000000000. lia. }
  unfold paused, bind, ret, LoadUint32. cbn [peek].
  split; [| split; [| split]].
  - destruct (delayCount p >? threshold); [reflexivity |].
    destruct (errCount p >? threshold); reflexivity.
  - destruct (delayCount p >? threshold); cbn [fst].
    + rewrite Hw. rewrite two32_eq in *. change Second with 1000000000. lia.
    + rewrite two32_eq.
      destruct (errCount p >? threshold); cbn [fst];
        change Minute with 60000000000; change Second with 1000000000; lia.
  - intros Hd. destruct (Z.gtb_spec (delayCount p) threshold); [| lia].
    exact Hw.
  - intros Hd He. destruct (Z.gtb_spec (delayCount p) threshold); [lia |].
    destruct (Z.gtb_spec (errCount p) threshold); [lia | reflexivity].
Qed.

(** X4: [resetPause] ends the pause, and so does every success: after
    [resetPause], after [delete] with a nil reason and after a dispatch
    whose handler succeeds, [paused] answers 0. *)
Theorem success_clears_pause (msg : Message) (p : Processor) :
  fst (paused (snd (resetPause p))) = 0 /\
  fst (paused (snd (delete E msg None p))) = 0 /\
  (Delay msg <= 0 -> handler E msg = None ->
   errCount (snd (Process E msg p)) = 0 /\
   delayCount (snd (Process E msg p)) = 0 /\
   fst (paused (snd (Process E msg p))) = 0).
Proof.
  split; [reflexivity |].
  destruct (delete_success_pause msg p) as (He & Hd & _).
  split; [now apply paused_zero |].
  intros Hdel Hh. rewrite (Process_success E msg p Hdel Hh). cbn [snd].
  set (q := snd (AddUint32 addr.processed 1 (after_handler E msg p))).
  destruct (delete_success_pause msg q) as (Heq & Hdq & _).
  split; [exact Heq | split; [exact Hdq | now apply paused_zero]].
Qed.

End Pause.

(** X3 at a processor that saw 101 failures delayed by two minutes. *)
Lemma paused_bounds_and_precedence_witness :
  fst (paused (poke addr.delayCount 101
                 (poke addr.delaySec 120 (New sample_opt))))
  = 2 * Minute.
Proof.
  destruct (paused_bounds_and_precedence
              (poke addr.delayCount 101
                 (poke addr.delaySec 120 (New sample_opt))))
    as (_ & _ & H & _).
  - intros a. destruct a; split; discriminate || reflexivity.
  - rewrite H; reflexivity.
Defined.

(** X4 at a success that follows 150 failures. *)
Lemma success_clears_pause_witness :
  fst (paused (poke addr.errCount 150 (New sample_opt))) = Minute /\
  fst (paused (snd (Process succeeding_env (job 0 1)
                      (poke addr.errCount 150 (New sample_opt))))) = 0.
Proof.
  split; [reflexivity |].
  destruct (success_clears_pause succeeding_env (job 0 1)
              (poke addr.errCount 150 (New sample_opt))) as (_ & _ & H).
  destruct H as (_ & _ & H); [discriminate | reflexivity | exact H].
Defined.

(** ** What a dispatch counts, calls and keeps *)

Section Dispatch.

Variable E : Env.

(** The words and calls of a dispatch, as functions of its three tests. *)
Lemma Process_effects msg p :
  let p' := snd (Process E msg p) in
  let invoked := negb (Delay msg >? 0) in
  let final := negb (ReservedCount msg <? RetryLimit (opt p)) in
  fst (Process E msg p) = (if invoked then handler E msg else None) /\
  handled (trace p')
  = (if invoked then S (handled (trace p)) else handled (trace p)) /\
  processed p'
  = (if invoked then
       match handler E msg with
       | None => uint32 (processed p + 1)
       | Some _ => processed p
       end
     else processed p) /\
  retries p'
  = (if invoked then
       match handler E msg with
       | None => retries p
       | Some _ => if final then retries p else uint32 (retries p + 1)
       end
     else retries p) /\
  fails p'
  = (if invoked then
       match handler E msg with
       | None => fails p
       | Some _ => if final then uint32 (fails p + 1) else fails p
       end
     else fails p) /\
  fallbacks (trace p')
  = (if invoked then
       match handler E msg, fallbackHandler E with
       | Some _, Some _ =>
           if final then S (fallbacks (trace p)) else fallbacks (trace p)
       | _, _ => fallbacks (trace p)
       end
     else fallbacks (trace p)) /\
  ch p' = ch p /\ stop_closed p' = stop_closed p /\ opt p' = opt p /\
  _started p' = _started p.
Proof. exec; repeat split; reflexivity. Qed.

Lemma after_handler_delBatch msg p :
  delBatch (after_handler E msg p) = delBatch p.
Proof. exec; reflexivity. Qed.

(** X5: a dispatch whose handler succeeds returns nil, increments
    [processed] only, takes the message out of [inFlight] and into
    [deleting], and hands it to the batcher; nothing is released, logged
    or passed to the fallback handler. *)
Theorem successful_dispatch (msg : Message) (p : Processor) :
  Delay msg <= 0 -> handler E msg = None ->
  let p' := snd (Process E msg p) in
  fst (Process E msg p) = None /\
  processed p' = uint32 (processed p + 1) /\
  retries p' = retries p /\ fails p' = fails p /\
  inFlight p' = uint32 (inFlight p - 1) /\
  deleting p' = uint32 (deleting p + 1) /\
  delBatch p' = delBatch p ++ [msg] /\
  trace p' = EvBatchAdd msg :: EvHandle msg :: trace p.
Proof.
  intros Hd Hh p'. subst p'.
  rewrite (Process_success E msg p Hd Hh). cbn [fst snd].
  destruct (after_handler_frame E msg p)
    as (_ & Hi & _ & _ & _ & Hre & Hf & Hp & Hdel & Ht).
  set (q := snd (AddUint32 addr.processed 1 (after_handler E msg p))).
  destruct (delete_frame E msg None q) as (_ & Hrq & Hfq & Hpq & Hdq & Hb & _).
  destruct (delete_success_pause E msg q) as (_ & _ & Htq).
  rewrite delete_inFlight, Hrq, Hfq, Hpq, Hdq, Hb, Htq.
  subst q. cbn. rewrite Hi, Hre, Hf, Hp, Hdel, Ht, after_handler_delBatch.
  repeat split; reflexivity.
Qed.

(** X6: [Process] returns the handler's error as it is, and counts every
    handler call in exactly one of [processed], [retries] and [fails]: a
    success in [processed], a failure below the retry limit in [retries],
    a failure at the limit in [fails].  A message with a positive [Delay]
    reaches no handler and no counter, and [Process] returns nil. *)
Theorem dispatch_counted_once (msg : Message) (p : Processor) :
  let p' := snd (Process E msg p) in
  (0 < Delay msg ->
     fst (Process E msg p) = None /\
     handled (trace p') = handled (trace p) /\
     processed p' = processed p /\ retries p' = retries p /\
     fails p' = fails p) /\
  (Delay msg <= 0 ->
     fst (Process E msg p) = handler E msg /\
     handled (trace p') = S (handled (trace p)) /\
     (handler E msg = None /\
      processed p' = uint32 (processed p + 1) /\
      retries p' = retries p /\ fails p' = fails p
      \/
      handler E msg <> None /\
      ReservedCount msg < RetryLimit (opt p) /\
      processed p' = processed p /\
      retries p' = uint32 (retries p + 1) /\ fails p' = fails p
      \/
      handler E msg <> None /\
      RetryLimit (opt p) <= ReservedCount msg /\
      processed p' = processed p /\
      retries p' = retries p /\ fails p' = uint32 (fails p + 1))).
Proof.
  intros p'. subst p'.
  destruct (Process_effects msg p) as (Hr & Hh & Hp & Hre & Hf & _).
  split; intros Hd.
  - destruct (Z.gtb_spec (Delay msg) 0); [| lia]. cbn in *. auto.
  - destruct (Z.gtb_spec (Delay msg) 0); [lia |]. cbn in *.
    split; [exact Hr |]. split; [exact Hh |].
    destruct (handler E msg) as [err |].
    + destruct (Z.ltb_spec (ReservedCount msg) (RetryLimit (opt p)));
        cbn in *.
      * right; left. repeat split; auto; discriminate.
      * right; right. repeat split; auto; discriminate.
    + left. auto.
Qed.

(** X7: the fallback handler runs only in a dispatch whose handler failed
    at the retry limit, once, and only if it is configured.  What it
    returns changes nothing: when it fails too, the message is still
    handed to the batcher and [Process] returns the error of the handler,
    not the error of the fallback handler. *)
Theorem fallback_only_on_final_failure (msg : Message) (p : Processor) :
  let p' := snd (Process E msg p) in
  (fallbacks (trace p') = S (fallbacks (trace p)) \/
   fallbacks (trace p') = fallbacks (trace p)) /\
  (fallbacks (trace p') = S (fallbacks (trace p)) <->
   Delay msg <= 0 /\ handler E msg <> None /\
   RetryLimit (opt p) <= ReservedCount msg /\ fallbackHandler E <> None) /\
  (forall h err ferr,
     Delay msg <= 0 -> handler E msg = Some err ->
     RetryLimit (opt p) <= ReservedCount msg ->
     fallbackHandler E = Some h -> h msg = Some ferr ->
     fst (Process E msg p) = Some err /\
     trace p'
     = EvBatchAdd msg :: EvLog (LogFallbackFailed ferr) :: EvFallback msg
       :: EvLog (LogHandlerFailed err) :: EvHandle msg :: trace p /\
     delBatch p' = delBatch p ++ [msg]).
Proof.
  intros p'. subst p'.
  destruct (Process_effects msg p) as (_ & _ & _ & _ & _ & Hfb & _).
  cbv zeta in Hfb.
  split; [| split].
  - rewrite Hfb.
    destruct (negb (Delay msg >? 0)), (handler E msg), (fallbackHandler E),
      (negb (ReservedCount msg <? RetryLimit (opt p))); auto.
  - rewrite Hfb.
    destruct (Z.gtb_spec (Delay msg) 0);
      destruct (Z.ltb_spec (ReservedCount msg) (RetryLimit (opt p)));
      destruct (handler E msg), (fallbackHandler E); cbn;
      split; intros Hx; try lia;
      try (destruct Hx as (H1 & H2 & H3 & H4); congruence || lia);
      repeat split; discriminate || lia.
  - intros h err ferr Hd Hh Hrc Hfh Hferr.
    rewrite (Process_fail E msg err p Hd Hh Hrc). cbn [fst snd].
    unfold delete, log_Printf, emit, modify, AddUint32, delBatch_Add,
      after_handler, updateAvgDuration, CompareAndSwapUint32, LoadUint32,
      bind, ret.
    rewrite Hfh, Hferr. cbn.
    destruct (avgDuration p =? avgDuration p); repeat split; reflexivity.
Qed.

End Dispatch.

(** X5 at a first delivery that succeeds. *)
Lemma successful_dispatch_witness :
  trace (snd (Process succeeding_env (job 0 1) (New sample_opt)))
  = [EvBatchAdd (job 0 1); EvHandle (job 0 1)] /\
  processed (snd (Process succeeding_env (job 0 1) (New sample_opt))) = 1.
Proof.
  destruct (successful_dispatch succeeding_env (job 0 1) (New sample_opt))
    as (_ & Hp & _ & _ & _ & _ & _ & Ht); [discriminate | reflexivity |].
  split; [exact Ht | exact Hp].
Defined.

(** X6 at a failure at the retry limit. *)
Lemma dispatch_counted_once_witness :
  fails (snd (Process failing_env (job 0 3) (New sample_opt))) = 1 /\
  retries (snd (Process failing_env (job 0 3) (New sample_opt))) = 0.
Proof.
  destruct (dispatch_counted_once failing_env (job 0 3) (New sample_opt))
    as (_ & H).
  destruct H as (_ & _ & [H | [H | H]]); [discriminate | | |].
  - destruct H as (H & _). discriminate H.
  - destruct H as (_ & H & _). discriminate H.
  - destruct H as (_ & _ & _ & Hr & Hf). split; [exact Hf | exact Hr].
Defined.

(** X7 at a fallback handler that fails. *)
Lemma fallback_only_on_final_failure_witness :
  fst (Process failing_fallback_env (job 0 3) (New sample_opt))
  = Some (ErrorString "boom") /\
  delBatch (snd (Process failing_fallback_env (job 0 3) (New sample_opt)))
  = [job 0 3].
Proof.
  destruct (fallback_only_on_final_failure failing_fallback_env (job 0 3)
              (New sample_opt)) as (_ & _ & H).
  destruct (H (fun _ => Some (ErrorString "fallback boom"))
              (ErrorString "boom") (ErrorString "fallback boom"))
    as (Hr & _ & Hb); try reflexivity; try discriminate.
  split; [exact Hr | exact Hb].
Defined.

(** ** The 32-bit words stay 32-bit words *)

Section InRange.

Variable E : Env.

Ltac words H :=
  pose proof (H addr.started); pose proof (H addr.errCount);
  pose proof (H addr.delayCount); pose proof (H addr.delaySec);
  pose proof (H addr.inFlight); pose proof (H addr.deleting);
  pose proof (H addr.processed); pose proof (H addr.fails);
  pose proof (H addr.retries); pose proof (H addr.avgDuration);
  clear H; cbn [peek] in *.

Ltac word_goal :=
  first [ assumption | apply uint32_range
        | rewrite ?two32_eq; lia | split; [discriminate | reflexivity] ].

Lemma New_in_range o : in_range (New o).
Proof. intros a. destruct a; cbn; split; discriminate || reflexivity. Qed.

Lemma release_in_range msg reason p :
  in_range p -> in_range (snd (release E msg reason p)).
Proof. intros H a. words H. exec; destruct a; cbn; word_goal. Qed.

Lemma delete_in_range msg reason p :
  in_range p -> in_range (snd (delete E msg reason p)).
Proof. intros H a. words H. exec; destruct a; cbn; word_goal. Qed.

Lemma deleteBatch_in_range msgs p :
  in_range p -> in_range (snd (deleteBatch E msgs p)).
Proof. intros H a. words H. exec; destruct a; cbn; word_goal. Qed.

Lemma Process_in_range msg p :
  in_range p -> in_range (snd (Process E msg p)).
Proof. intros H a. words H. exec; destruct a; cbn; word_goal. Qed.

Lemma delBatch_Wait'_in_range p :
  in_range p -> in_range (snd (delBatch_Wait' E p)).
Proof.
  intros H. unfold delBatch_Wait', bind, get, ret, modify.
  destruct (delBatch p) as [| m l]; [exact H |].
  pose proof (deleteBatch_in_range (m :: l) (set_delBatch [] p)) as Hd.
  destruct (deleteBatch E (m :: l) (set_delBatch [] p)) as [u q].
  cbn [snd] in *. apply Hd. exact H.
Qed.

Lemma ProcessOne_in_range p :
  in_range p -> in_range (snd (ProcessOne E p)).
Proof.
  intros H. unfold ProcessOne, bind at 1.
  assert (Hres : in_range (snd (reserveOne E p))).
  { unfold reserveOne, bind, get, ret, modify, AddUint32.
    destruct (ch p) as [| m rest]; [| exact H].
    destruct (q_ReserveN E 1) as [msgs [[] |]]; destruct msgs;
      try exact H; cbn [snd]; intros a; words H; destruct a; cbn;
      word_goal. }
  destruct (reserveOne E p) as [[msg | err] p1]; [| exact Hres].
  cbn [snd] in Hres. unfold bind.
  pose proof (Process_in_range msg p1 Hres) as Hp.
  destruct (Process E msg p1) as [retErr p2]. cbn [snd] in Hp.
  pose proof (delBatch_Wait'_in_range p2 Hp) as Hw.
  destruct (delBatch_Wait' E p2) as [werr p3]. cbn [snd] in Hw.
  destruct werr, retErr; exact Hw.
Qed.

Lemma Purge_in_range fuel :
  forall p, in_range p -> in_range (snd (Purge E fuel p)).
Proof.
  induction fuel as [| fuel IH]; intros p H; [exact H |].
  cbn [Purge]. unfold bind at 1, get.
  destruct (ch p) as [| msg rest]; [exact H |].
  unfold bind at 1, modify. unfold bind.
  pose proof (delete_in_range msg None (set_ch rest p) H) as Hd.
  destruct (delete E msg None (set_ch rest p)) as [u q].
  apply IH. exact Hd.
Qed.

(** X8: the words of a processor made by [New] are 32-bit values, and
    [Process], [ProcessOne], [Purge], the flush function [deleteBatch] and
    [StopTimeout] keep them so: every counter [Stats] reports lies in
    [0, 2^32), and the average duration it reports is the word
    [avgDuration] in milliseconds, without overflow. *)
Theorem words_stay_in_range
  (o : Options) (msg : Message) (msgs : list Message) (fuel : nat)
  (timeout : Duration) (sel : select_case) (p : Processor) :
  in_range (New o) /\
  (in_range p ->
   in_range (snd (Process E msg p)) /\
   in_range (snd (ProcessOne E p)) /\
   in_range (snd (Purge E fuel p)) /\
   in_range (snd (deleteBatch E msgs p)) /\
   in_range (snd (StopTimeout E timeout sel p)) /\
   snd (Processor_Stats p) = p /\
   AvgDuration (fst (Processor_Stats p)) = avgDuration p * Millisecond /\
   0 <= InFlight (fst (Processor_Stats p)) < two32 /\
   0 <= Deleting (fst (Processor_Stats p)) < two32 /\
   0 <= Processed (fst (Processor_Stats p)) < two32 /\
   0 <= Retries (fst (Processor_Stats p)) < two32 /\
   0 <= Fails (fst (Processor_Stats p)) < two32).
Proof.
  split; [apply New_in_range |]. intros H.
  split; [now apply Process_in_range |].
  split; [now apply ProcessOne_in_range |].
  split; [now apply Purge_in_range |].
  split; [now apply deleteBatch_in_range |].
  split.
  { unfold StopTimeout, stopWorkersTimeout, bind, CompareAndSwapUint32,
      modify, ret. cbn [peek].
    destruct (_started p =? 1); cbn [negb]; [| exact H].
    assert (Hq : in_range
                   (set_stop_closed true (poke addr.started 0 p))).
    { intros a. words H. destruct a; cbn; word_goal. }
    destruct sel; [exact Hq |].
    now apply delBatch_Wait'_in_range. }
  split; [reflexivity |].
  split.
  { cbn. apply wrap64_small.
    pose proof (H addr.avgDuration) as Ha. cbn [peek] in Ha.
    rewrite two63_eq. rewrite two32_eq in Ha.
    change Millisecond with 1000000. lia. }
  repeat split;
    first [ apply (H addr.inFlight) | apply (H addr.deleting)
          | apply (H addr.processed) | apply (H addr.retries)
          | apply (H addr.fails) ].
Qed.

End InRange.

(** X8 at a fresh processor. *)
Lemma words_stay_in_range_witness :
  in_range (snd (Process failing_env (job 0 1) (New sample_opt))) /\
  in_range (snd (ProcessOne succeeding_env (New sample_opt))).
Proof.
  destruct (words_stay_in_range failing_env sample_opt (job 0 1) [] 0
              Second Stopped (New sample_opt)) as (Hn & H).
  destruct (words_stay_in_range succeeding_env sample_opt (job 0 1) [] 0
              Second Stopped (New sample_opt)) as (_ & H').
  destruct (H Hn) as (H1 & _). destruct (H' Hn) as (_ & H2 & _).
  split; [exact H1 | exact H2].
Defined.

(** ** Purge *)

Section Purging.

Variable E : Env.

Lemma uint32_sub_idemp (a b : Z) : uint32 (uint32 a - b) = uint32 (a - b).
Proof. unfold uint32. apply Zminus_mod_idemp_l. Qed.

Lemma uint32_idemp (a : Z) : uint32 (uint32 a) = uint32 a.
Proof. unfold uint32. apply Z.mod_mod. discriminate. Qed.

Lemma Purge_step fuel p :
  Purge E (S fuel) p
  = match ch p with
    | [] => (Some None, p)
    | msg :: rest => Purge E fuel (snd (delete E msg None (set_ch rest p)))
    end.
Proof.
  cbn [Purge]. unfold bind at 1, get.
  destruct (ch p) as [| msg rest]; [reflexivity |].
  unfold bind at 1, modify. unfold bind at 1.
  now destruct (delete E msg None (set_ch rest p)).
Qed.

Lemma Purge_drains (fuel : nat) :
  forall p,
    (List.length (ch p) < fuel)%nat ->
    fst (Purge E fuel p) = Some None /\
    ch (snd (Purge E fuel p)) = [] /\
    delBatch (snd (Purge E fuel p)) = delBatch p ++ ch p /\
    uint32 (inFlight (snd (Purge E fuel p)))
    = uint32 (inFlight p - Z.of_nat (List.length (ch p))) /\
    uint32 (deleting (snd (Purge E fuel p)))
    = uint32 (deleting p + Z.of_nat (List.length (ch p))) /\
    trace (snd (Purge E fuel p)) = map EvBatchAdd (rev (ch p)) ++ trace p /\
    processed (snd (Purge E fuel p)) = processed p /\
    retries (snd (Purge E fuel p)) = retries p /\
    fails (snd (Purge E fuel p)) = fails p.
Proof.
  induction fuel as [| fuel IH]; intros p Hfuel; [inversion Hfuel |].
  rewrite Purge_step.
  destruct (ch p) as [| msg rest] eqn:Hch.
  - cbn [fst snd]. rewrite ?Hch. cbn [List.length rev map app].
    change (Z.of_nat 0) with 0.
    rewrite app_nil_r, Z.sub_0_r, Z.add_0_r. repeat split; reflexivity.
  - destruct (delete_frame E msg None (set_ch rest p))
      as (_ & Hre & Hf & Hp & Hdel & Hb & Hc).
    destruct (delete_success_pause E msg (set_ch rest p)) as (_ & _ & Ht).
    pose proof (delete_inFlight E msg None (set_ch rest p)) as Hi.
    set (q := snd (delete E msg None (set_ch rest p))) in *.
    cbn [set_ch ch delBatch trace inFlight deleting retries fails
           processed] in *.
    cbn [List.length] in Hfuel.
    destruct (IH q) as (Hr & Hch' & Hb' & Hi' & Hdel' & Ht' & Hp' & Hre'
      & Hf'); [rewrite Hc; lia |].
    rewrite Hc in *.
    split; [exact Hr |]. split; [exact Hch' |].
    split; [rewrite Hb', Hb, <- app_assoc; reflexivity |].
    split.
    { rewrite Hi', Hi, uint32_sub_idemp. f_equal.
      cbn [List.length]. lia. }
    split.
    { rewrite Hdel', Hdel, uint32_add_idemp. f_equal.
      cbn [List.length]. lia. }
    split.
    { rewrite Ht', Ht. cbn [rev]. rewrite map_app, <- app_assoc.
      reflexivity. }
    rewrite Hp', Hre', Hf', Hp, Hre, Hf. repeat split; reflexivity.
Qed.

(** X9: [Purge] returns nil and leaves the channel empty.  Every buffered
    message goes to the batcher, in channel order, and to nothing else: no
    handler, no fallback handler, no release, no log line.  [inFlight]
    goes down and [deleting] goes up by the number of messages (modulo
    [2^32]), and [processed], [retries] and [fails] stay as they are. *)
Theorem Purge_hands_buffer_to_batcher (fuel : nat) (p : Processor) :
  in_range p ->
  (List.length (ch p) < fuel)%nat ->
  let n := Z.of_nat (List.length (ch p)) in
  let p' := snd (Purge E fuel p) in
  fst (Purge E fuel p) = Some None /\
  ch p' = [] /\
  delBatch p' = delBatch p ++ ch p /\
  trace p' = map EvBatchAdd (rev (ch p)) ++ trace p /\
  inFlight p' = uint32 (inFlight p - n) /\
  deleting p' = uint32 (deleting p + n) /\
  processed p' = processed p /\ retries p' = retries p /\
  fails p' = fails p.
Proof.
  intros Hr Hfuel n p'. subst n p'.
  destruct (Purge_drains fuel p Hfuel)
    as (H1 & H2 & H3 & H4 & H5 & H6 & H7 & H8 & H9).
  pose proof (Purge_in_range E fuel p Hr) as Hr'.
  pose proof (Hr' addr.inFlight) as Hi. pose proof (Hr' addr.deleting) as Hd.
  cbn [peek] in Hi, Hd.
  rewrite (uint32_small _ Hi) in H4. rewrite (uint32_small _ Hd) in H5.
  repeat split; assumption.
Qed.

End Purging.

(** X9 at a buffer of two messages. *)
Lemma Purge_hands_buffer_to_batcher_witness :
  delBatch (snd (Purge failing_env 3
                   (set_ch [job 0 1; job 0 2]
                      (poke addr.inFlight 2 (New sample_opt)))))
  = [job 0 1; job 0 2] /\
  inFlight (snd (Purge failing_env 3
                   (set_ch [job 0 1; job 0 2]
                      (poke addr.inFlight 2 (New sample_opt)))))
  = 0.
Proof.
  destruct (Purge_hands_buffer_to_batcher failing_env 3
              (set_ch [job 0 1; job 0 2]
                 (poke addr.inFlight 2 (New sample_opt))))
    as (_ & _ & Hb & _ & Hi & _).
  - intros a. destruct a; cbn; split; discriminate || reflexivity.
  - cbn. lia.
  - split; [exact Hb | rewrite Hi; reflexivity].
Defined.

(** ** The channel: enqueue, fetch, dequeue *)

Section Channel.

Variable E : Env.

Lemma queueMessage_room msg p :
  Z.of_nat (List.length (ch p)) < BufferSize (opt p) ->
  queueMessage msg p
  = Returns tt (set_ch (ch p ++ [msg])
                  (poke addr.inFlight (uint32 (inFlight p + 1)) p)).
Proof.
  intros Hroom. unfold queueMessage, AddUint32. cbn.
  destruct (Z.ltb_spec (Z.of_nat (List.length (ch p))) (BufferSize (opt p)));
    [reflexivity | lia].
Qed.

Lemma queueMessage_full msg p :
  BufferSize (opt p) <= Z.of_nat (List.length (ch p)) ->
  queueMessage msg p
  = Blocks (poke addr.inFlight (uint32 (inFlight p + 1)) p).
Proof.
  intros Hfull. unfold queueMessage, AddUint32. cbn.
  destruct (Z.ltb_spec (Z.of_nat (List.length (ch p))) (BufferSize (opt p)));
    [lia | reflexivity].
Qed.

(** X12: [dequeueMessage] gives the oldest buffered message whenever the
    channel is not empty, whether [stop] is closed or not and whichever
    case the [select] takes; it reports the shutdown only when [stop] is
    closed and the channel is empty, and waits when the channel is empty
    and [stop] is open. *)
Theorem dequeueMessage_never_skips_buffered
  (pick_stop : bool) (p : Processor) :
  dequeueMessage pick_stop p = dequeueMessage (negb pick_stop) p /\
  (forall msg rest,
     ch p = msg :: rest ->
     dequeueMessage pick_stop p = Returns (Some msg) (set_ch rest p)) /\
  (ch p = [] -> stop_closed p = true ->
   dequeueMessage pick_stop p = Returns None p) /\
  (ch p = [] -> stop_closed p = false ->
   dequeueMessage pick_stop p = Blocks p).
Proof.
  unfold dequeueMessage.
  split; [| split; [| split]].
  - destruct (ch p), (stop_closed p), pick_stop; reflexivity.
  - intros msg rest ->. destruct (stop_closed p), pick_stop; reflexivity.
  - intros -> ->. reflexivity.
  - intros -> ->. reflexivity.
Qed.

(** X10: [Add] puts the message at the back of the channel and counts it
    in [inFlight]; on a full channel it waits with the message already
    counted.  [AddDelay] with a delay other than zero, negative ones
    included, counts the message at once and leaves it to a timer; with a
    zero delay it is [Add].  On an empty channel with room, the message
    added is the one [dequeueMessage] gives next. *)
Theorem Add_counts_then_sends
  (msg : Message) (d : Duration) (pick_stop : bool) (p : Processor) :
  (Z.of_nat (List.length (ch p)) < BufferSize (opt p) ->
   Add msg p
   = Returns None (set_ch (ch p ++ [msg])
                     (poke addr.inFlight (uint32 (inFlight p + 1)) p))) /\
  (BufferSize (opt p) <= Z.of_nat (List.length (ch p)) ->
   Add msg p = Blocks (poke addr.inFlight (uint32 (inFlight p + 1)) p)) /\
  (d <> 0 ->
   AddDelay msg d p
   = Returns None (set_timers ((d, msg) :: timers p)
                     (poke addr.inFlight (uint32 (inFlight p + 1)) p))) /\
  AddDelay msg 0 p = Add msg p /\
  (ch p = [] -> 0 < BufferSize (opt p) ->
   exists p1,
     Add msg p = Returns None p1 /\
     dequeueMessage pick_stop p1
     = Returns (Some msg)
         (set_ch [] (poke addr.inFlight (uint32 (inFlight p + 1)) p))).
Proof.
  split; [| split; [| split; [| split]]].
  - intros Hroom. unfold Add. now rewrite queueMessage_room.
  - intros Hfull. unfold Add. now rewrite queueMessage_full.
  - intros Hd. unfold AddDelay, AddUint32.
    destruct (Z.eqb_spec d 0); [contradiction | reflexivity].
  - reflexivity.
  - intros Hch Hb. eexists. split.
    + unfold Add. rewrite queueMessage_room; [reflexivity |].
      rewrite Hch. exact Hb.
    + rewrite Hch. unfold dequeueMessage. cbn.
      destruct (stop_closed p), pick_stop; reflexivity.
Qed.

Lemma queueMessages_room (msgs : list Message) :
  forall p,
    Z.of_nat (List.length (ch p)) + Z.of_nat (List.length msgs)
    <= BufferSize (opt p) ->
    exists p',
      queueMessages msgs p = Returns tt p' /\
      ch p' = ch p ++ msgs /\
      uint32 (inFlight p')
      = uint32 (inFlight p + Z.of_nat (List.length msgs)) /\
      opt p' = opt p /\ trace p' = trace p /\ delBatch p' = delBatch p /\
      stop_closed p' = stop_closed p.
Proof.
  induction msgs as [| msg rest IH]; intros p Hroom.
  - exists p. cbn. rewrite app_nil_r, Z.add_0_r. repeat split; reflexivity.
  - cbn [queueMessages]. cbn [List.length] in Hroom.
    rewrite queueMessage_room by lia.
    set (q := set_ch (ch p ++ [msg])
                (poke addr.inFlight (uint32 (inFlight p + 1)) p)).
    destruct (IH q) as (p' & Hq & Hch & Hi & Ho & Ht & Hb & Hs).
    { subst q. cbn [set_ch ch opt poke]. rewrite length_app.
      cbn [List.length]. lia. }
    exists p'. split; [exact Hq |].
    subst q. cbn in Hch, Hi, Ho, Ht, Hb, Hs.
    split; [rewrite Hch, <- app_assoc; reflexivity |].
    split.
    { rewrite Hi, uint32_add_idemp. f_equal. cbn [List.length]. lia. }
    repeat split; assumption.
Qed.

Lemma queueMessages_full (msgs : list Message) :
  forall p,
    Z.of_nat (List.length (ch p)) <= BufferSize (opt p) ->
    BufferSize (opt p)
    < Z.of_nat (List.length (ch p)) + Z.of_nat (List.length msgs) ->
    exists p', queueMessages msgs p = Blocks p' /\
               Z.of_nat (List.length (ch p')) = BufferSize (opt p).
Proof.
  induction msgs as [| msg rest IH]; intros p Hle Hover.
  - cbn [List.length] in Hover. lia.
  - cbn [queueMessages].
    destruct (Z.lt_ge_cases (Z.of_nat (List.length (ch p)))
                (BufferSize (opt p))) as [Hroom | Hfull].
    + rewrite queueMessage_room by exact Hroom.
      set (q := set_ch (ch p ++ [msg])
                  (poke addr.inFlight (uint32 (inFlight p + 1)) p)).
      destruct (IH q) as (p' & Hq & Hlen).
      * subst q. cbn [set_ch ch opt poke]. rewrite length_app.
        cbn [List.length]. lia.
      * subst q. cbn [set_ch ch opt poke]. rewrite length_app.
        cbn [List.length] in *. lia.
      * exists p'. split; [exact Hq | exact Hlen].
    + rewrite queueMessage_full by exact Hfull.
      eexists. split; [reflexivity |]. cbn. lia.
Qed.

(** X11: [fetchMessages] asks the backend for [BufferSize] messages.  On
    any error, [ErrNotSupported] included, it reports 0 messages and that
    error and queues nothing, even if the backend handed messages over.
    Without error and with room in the channel, the messages are appended
    in order, each counted in [inFlight], and their number is returned.
    When they do not all fit, it waits on a full channel. *)
Theorem fetchMessages_queues_what_it_reserves (p : Processor) :
  (forall msgs e,
     q_ReserveN E (BufferSize (opt p)) = (msgs, Some e) ->
     fetchMessages E p = Returns (0, Some e) p) /\
  (forall msgs,
     q_ReserveN E (BufferSize (opt p)) = (msgs, None) ->
     Z.of_nat (List.length (ch p)) + Z.of_nat (List.length msgs)
     <= BufferSize (opt p) ->
     exists p',
       fetchMessages E p
       = Returns (Z.of_nat (List.length msgs), None) p' /\
       ch p' = ch p ++ msgs /\
       uint32 (inFlight p')
       = uint32 (inFlight p + Z.of_nat (List.length msgs)) /\
       trace p' = trace p) /\
  (forall msgs,
     q_ReserveN E (BufferSize (opt p)) = (msgs, None) ->
     Z.of_nat (List.length (ch p)) <= BufferSize (opt p) ->
     BufferSize (opt p)
     < Z.of_nat (List.length (ch p)) + Z.of_nat (List.length msgs) ->
     exists p', fetchMessages E p = Blocks p' /\
                Z.of_nat (List.length (ch p')) = BufferSize (opt p)).
Proof.
  unfold fetchMessages. split; [| split].
  - intros msgs e ->. reflexivity.
  - intros msgs -> Hroom.
    destruct (queueMessages_room msgs p Hroom)
      as (p' & Hq & Hch & Hi & _ & Ht & _).
    exists p'. rewrite Hq. auto.
  - intros msgs -> Hle Hover.
    destruct (queueMessages_full msgs p Hle Hover) as (p' & Hq & Hlen).
    exists p'. rewrite Hq. auto.
Qed.

End Channel.

(** X10 at a fresh processor. *)
Lemma Add_counts_then_sends_witness :
  exists p1,
    Add (job 0 1) (New sample_opt) = Returns None p1 /\
    inFlight p1 = 1 /\
    dequeueMessage true p1
    = Returns (Some (job 0 1))
        (set_ch [] (poke addr.inFlight 1 (New sample_opt))).
Proof.
  destruct (Add_counts_then_sends (job 0 1) 0 true (New sample_opt))
    as (Hadd & _ & _ & _ & H).
  destruct H as (p1 & HA & HD); [reflexivity | reflexivity |].
  exists p1. split; [exact HA |]. split; [| exact HD].
  rewrite Hadd in HA by reflexivity. injection HA as <-. reflexivity.
Defined.

(** X12 at a stopped processor that still buffers a message. *)
Lemma dequeueMessage_never_skips_buffered_witness :
  dequeueMessage true
    (set_stop_closed true (set_ch [job 0 1] (New sample_opt)))
  = Returns (Some (job 0 1))
      (set_ch [] (set_stop_closed true (set_ch [job 0 1] (New sample_opt)))).
Proof.
  destruct (dequeueMessage_never_skips_buffered true
              (set_stop_closed true (set_ch [job 0 1] (New sample_opt))))
    as (_ & H & _).
  apply (H (job 0 1) []). reflexivity.
Defined.

(** X11 at a backend that hands over two messages, and at one that
    fails. *)
Lemma fetchMessages_queues_what_it_reserves_witness :
  (exists p',
     fetchMessages succeeding_env (New sample_opt) = Returns (2, None) p' /\
     ch p' = [job 0 1; job 0 1]) /\
  fetchMessages reserve_error_env (New sample_opt)
  = Returns (0, Some (ErrorString "connection refused")) (New sample_opt).
Proof.
  destruct (fetchMessages_queues_what_it_reserves succeeding_env
              (New sample_opt)) as (_ & H & _).
  destruct (fetchMessages_queues_what_it_reserves reserve_error_env
              (New sample_opt)) as (He & _).
  split.
  - destruct (H [job 0 1; job 0 1]) as (p' & Hf & Hch & _);
      [reflexivity | cbn; lia |].
    exists p'. split; [exact Hf | exact Hch].
  - apply (He []). reflexivity.
Defined.

(** ** A worker draining the channel *)

Section Draining.

Variable E : Env.

(** [Process] does not look at the channel. *)
Lemma Process_set_ch msg c p :
  Process E msg (set_ch c p)
  = (fst (Process E msg p), set_ch c (snd (Process E msg p))).
Proof. exec; reflexivity. Qed.

Lemma dispatch_all_set_ch msgs :
  forall c p,
    dispatch_all E msgs (set_ch c p) = set_ch c (dispatch_all E msgs p).
Proof.
  induction msgs as [| msg rest IH]; intros c p; [reflexivity |].
  cbn [dispatch_all fold_left]. rewrite Process_set_ch. cbn [snd].
  apply IH.
Qed.

Lemma set_ch_same p : ch p = [] -> set_ch [] p = p.
Proof. destruct p. cbn. now intros ->. Qed.

(** What the dispatches of a worker add up to. *)
Lemma dispatch_all_effects msgs :
  forall p,
    let p' := dispatch_all E msgs p in
    terminals (trace p') = (List.length msgs + terminals (trace p))%nat /\
    uint32 (inFlight p')
    = uint32 (inFlight p - Z.of_nat (List.length msgs)) /\
    opt p' = opt p /\ ch p' = ch p /\ stop_closed p' = stop_closed p.
Proof.
  induction msgs as [| msg rest IH]; intros p.
  - cbn. rewrite Z.sub_0_r. repeat split; reflexivity.
  - cbn [dispatch_all fold_left].
    destruct (Process_terminal E msg p) as (Hone & Hi & Ho).
    destruct (Process_effects E msg p)
      as (_ & _ & _ & _ & _ & _ & Hc & Hs & _).
    cbv zeta in Hc, Hs.
    destruct (IH (snd (Process E msg p))) as (Ht' & Hi' & Ho' & Hc' & Hs').
    fold (dispatch_all E rest (snd (Process E msg p))).
    split.
    { rewrite Ht'. unfold terminals. cbn [List.length].
      destruct Hone as [[Hr Hd] | [Hr Hd]]; rewrite Hr, Hd; lia. }
    split.
    { rewrite Hi', Hi, uint32_sub_idemp. f_equal. cbn [List.length]. lia. }
    rewrite Ho', Hc', Hs', Ho, Hc, Hs. repeat split; reflexivity.
Qed.

Lemma dequeueMessage_head pick p msg rest :
  ch p = msg :: rest ->
  dequeueMessage pick p = Returns (Some msg) (set_ch rest p).
Proof.
  intros Hch. unfold dequeueMessage. rewrite Hch.
  destruct (stop_closed p), pick; reflexivity.
Qed.

Lemma dequeueMessage_empty pick p :
  ch p = [] ->
  dequeueMessage pick p
  = if stop_closed p then Returns None p else Blocks p.
Proof. intros Hch. unfold dequeueMessage. now rewrite Hch. Qed.

Lemma worker_runs (fuel : nat) (pick_stop : nat -> bool) :
  forall p,
    (List.length (ch p) < fuel)%nat ->
    worker E fuel None pick_stop p
    = Some (if stop_closed p
            then Returns tt (set_ch [] (dispatch_all E (ch p) p))
            else Blocks (set_ch [] (dispatch_all E (ch p) p))).
Proof.
  induction fuel as [| fuel IH]; intros p Hfuel; [inversion Hfuel |].
  cbn [worker].
  destruct (ch p) as [| msg rest] eqn:Hch.
  - cbn [dispatch_all fold_left]. rewrite (set_ch_same p Hch).
    rewrite (dequeueMessage_empty _ p Hch).
    destruct (stop_closed p); reflexivity.
  - rewrite (dequeueMessage_head _ p msg rest Hch).
    rewrite Process_set_ch.
    destruct (Process_effects E msg p)
      as (_ & _ & _ & _ & _ & _ & Hc & Hs & _).
    cbv zeta in Hc, Hs.
    rewrite IH by (cbn [set_ch ch]; cbn [List.length] in Hfuel; lia).
    cbn [set_ch ch stop_closed]. rewrite Hs.
    cbn [dispatch_all fold_left].
    fold (dispatch_all E rest
            (set_ch rest (snd (Process E msg p)))).
    fold (dispatch_all E rest (snd (Process E msg p))).
    rewrite dispatch_all_set_ch.
    destruct (stop_closed p); reflexivity.
Qed.

(** X13: a worker without rate limiter dispatches every message the
    channel holds, oldest first, each through [Process] and so to exactly
    one terminal transition, and leaves the channel empty; [inFlight] goes
    down by their number (modulo [2^32]).  Once [stop] is closed the worker
    then returns: closing [stop] drops no buffered message.  While [stop]
    is open it waits for the next message instead. *)
Theorem worker_drains_channel
  (fuel : nat) (pick_stop : nat -> bool) (p : Processor) :
  (List.length (ch p) < fuel)%nat ->
  exists p',
    worker E fuel None pick_stop p
    = Some (if stop_closed p then Returns tt p' else Blocks p') /\
    p' = set_ch [] (dispatch_all E (ch p) p) /\
    ch p' = [] /\
    terminals (trace p')
    = (List.length (ch p) + terminals (trace p))%nat /\
    uint32 (inFlight p')
    = uint32 (inFlight p - Z.of_nat (List.length (ch p))).
Proof.
  intros Hfuel. eexists. split; [now apply worker_runs |].
  split; [reflexivity |]. split; [reflexivity |].
  destruct (dispatch_all_effects (ch p) p) as (Ht & Hi & _).
  split; [exact Ht | exact Hi].
Qed.

(** One retry with a delay above one minute. *)
Lemma Process_delayer_retry msg s d p :
  Delay msg <= 0 -> handler E msg = Some (ErrDelayer s d) ->
  ReservedCount msg < RetryLimit (opt p) -> Minute < d ->
  delayCount (snd (Process E msg p)) = uint32 (delayCount p + 1) /\
  delaySec (snd (Process E msg p)) = uint32 (Z.quot d Second) /\
  releases (trace (snd (Process E msg p))) = S (releases (trace p)) /\
  opt (snd (Process E msg p)) = opt p.
Proof.
  intros Hd Hh Hrc Hm.
  rewrite (Process_retry E msg (ErrDelayer s d) p Hd Hh Hrc). cbn [snd].
  unfold release, releaseBackoff, log_Printf, emit, modify, AddUint32,
    StoreUint32, after_handler, updateAvgDuration, CompareAndSwapUint32,
    LoadUint32, bind, ret, releases.
  cbn [asDelayer].
  destruct (Z.gtb_spec d Minute); [| lia]. cbn.
  destruct (avgDuration p =? avgDuration p);
    destruct (q_Release E msg d); repeat split; reflexivity.
Qed.

Lemma dispatch_all_delayed msgs d :
  forall p,
    (forall m, In m msgs ->
       Delay m <= 0 /\ ReservedCount m < RetryLimit (opt p) /\
       exists s, handler E m = Some (ErrDelayer s d)) ->
    Minute < d -> msgs <> [] ->
    delayCount (dispatch_all E msgs p)
    = uint32 (delayCount p + Z.of_nat (List.length msgs)) /\
    delaySec (dispatch_all E msgs p) = uint32 (Z.quot d Second) /\
    releases (trace (dispatch_all E msgs p))
    = (List.length msgs + releases (trace p))%nat.
Proof.
  induction msgs as [| msg rest IH]; intros p Hall Hm Hne; [now elim Hne |].
  cbn [dispatch_all fold_left].
  fold (dispatch_all E rest (snd (Process E msg p))).
  destruct (Hall msg (or_introl eq_refl)) as (Hd & Hrc & s & Hh).
  destruct (Process_delayer_retry msg s d p Hd Hh Hrc Hm)
    as (Hdc & Hds & Hr & Ho).
  destruct rest as [| m2 rest].
  - cbn [dispatch_all fold_left List.length]. rewrite Hdc, Hds, Hr.
    repeat split; reflexivity.
  - destruct (IH (snd (Process E msg p))) as (Hdc' & Hds' & Hr').
    + intros m Hin. rewrite Ho. apply Hall. now right.
    + exact Hm.
    + discriminate.
    + rewrite Hdc', Hds', Hr', Hdc, Hr, uint32_add_idemp.
      split; [f_equal; cbn [List.length]; lia |].
      split; [reflexivity | cbn [List.length]; lia].
Qed.

Lemma paused_delayed (q : Processor) :
  threshold < delayCount q ->
  fst (paused q) = wrap64 (delaySec q * Second).
Proof.
  intros Hd. unfold paused, bind, ret, LoadUint32. cbv beta iota.
  cbn [peek].
  destruct (Z.gtb_spec (delayCount q) threshold); [reflexivity | lia].
Qed.

(** X14: failures that carry a delay add up to a pause.  When a worker
    drains a channel of more than 100 messages (and fewer than [2^32])
    whose handler fails below the retry limit with a [Delayer] error of
    delay [d] above one minute, starting from [delayCount = 0], every
    message is released, [delayCount] ends at their number, and [paused]
    then tells the fetcher to pause for [d] in whole seconds. *)
Theorem delayed_failures_pause_fetcher
  (fuel : nat) (pick_stop : nat -> bool) (d : Duration) (p : Processor) :
  (List.length (ch p) < fuel)%nat ->
  (forall m, In m (ch p) ->
     Delay m <= 0 /\ ReservedCount m < RetryLimit (opt p) /\
     exists s, handler E m = Some (ErrDelayer s d)) ->
  Minute < d ->
  delayCount p = 0 ->
  100 < Z.of_nat (List.length (ch p)) < two32 ->
  exists p',
    worker E fuel None pick_stop p
    = Some (if stop_closed p then Returns tt p' else Blocks p') /\
    releases (trace p')
    = (List.length (ch p) + releases (trace p))%nat /\
    delayCount p' = Z.of_nat (List.length (ch p)) /\
    delaySec p' = uint32 (Z.quot d Second) /\
    fst (paused p') = uint32 (Z.quot d Second) * Second.
Proof.
  intros Hfuel Hall Hm Hz Hlen.
  assert (Hne : ch p <> []).
  { intros Hnil. rewrite Hnil in Hlen. cbn in Hlen. lia. }
  destruct (dispatch_all_delayed (ch p) d p Hall Hm Hne)
    as (Hdc & Hds & Hr).
  rewrite Hz, Z.add_0_l, uint32_small in Hdc by lia.
  eexists. split; [now apply worker_runs |].
  cbn [set_ch trace delayCount delaySec].
  split; [exact Hr |]. split; [exact Hdc |]. split; [exact Hds |].
  rewrite paused_delayed
    by (cbn [set_ch delayCount]; rewrite Hdc; unfold threshold; lia).
  cbn [set_ch delaySec]. rewrite Hds. apply wrap64_small.
  pose proof (uint32_range (Z.quot d Second)) as Hu.
  rewrite two63_eq. rewrite two32_eq in Hu.
  set (secs := uint32 (Z.quot d Second)) in *.
  change Second with 1000000000. lia.
Qed.

End Draining.

(** X13 at a stopped processor that still buffers two messages. *)
Lemma worker_drains_channel_witness :
  exists p',
    worker succeeding_env 3 None (fun _ => true)
      (set_stop_closed true
         (set_ch [job 0 1; job 0 2] (poke addr.inFlight 2 (New sample_opt))))
    = Some (Returns tt p') /\
    ch p' = [] /\ terminals (trace p') = 2%nat.
Proof.
  destruct (worker_drains_channel succeeding_env 3 (fun _ => true)
              (set_stop_closed true
                 (set_ch [job 0 1; job 0 2]
                    (poke addr.inFlight 2 (New sample_opt)))))
    as (p' & Hw & _ & Hch & Ht & _); [cbn; lia |].
  exists p'. split; [exact Hw |]. split; [exact Hch | exact Ht].
Defined.

(** X14 at 101 messages whose handler asks for two minutes. *)
Lemma delayed_failures_pause_fetcher_witness :
  exists p',
    worker delaying_env 102 None (fun _ => false)
      (set_stop_closed true (set_ch (repeat (job 0 1) 101) (New sample_opt)))
    = Some (Returns tt p') /\
    fst (paused p') = 2 * Minute.
Proof.
  destruct (delayed_failures_pause_fetcher delaying_env 102 (fun _ => false)
              (2 * Minute)
              (set_stop_closed true
                 (set_ch (repeat (job 0 1) 101) (New sample_opt))))
    as (p' & Hw & _ & _ & _ & Hp).
  - cbn [set_stop_closed set_ch ch]. rewrite repeat_length. lia.
  - cbn [set_stop_closed set_ch ch opt New]. intros m Hin.
    apply repeat_spec in Hin. subst m.
    split; [discriminate |]. split; [reflexivity |].
    exists "later"%string. reflexivity.
  - reflexivity.
  - reflexivity.
  - cbn [set_stop_closed set_ch ch]. rewrite repeat_length.
    split; reflexivity.
  - exists p'. split; [exact Hw | exact Hp].
Defined.

(** ** Starting and stopping *)

Section StartStop.

Variable E : Env.

(** Waiting for the batcher touches neither the lifecycle fields, nor the
    channel, nor [inFlight], nor the terminal calls on the trace. *)
Lemma delBatch_Wait'_frame p :
  let p' := snd (delBatch_Wait' E p) in
  _started p' = _started p /\ stop_closed p' = stop_closed p /\
  ch p' = ch p /\ inFlight p' = inFlight p /\
  releases (trace p') = releases (trace p) /\
  deletes (trace p') = deletes (trace p) /\
  handled (trace p') = handled (trace p).
Proof.
  unfold delBatch_Wait', bind, get, ret, modify.
  destruct (delBatch p) as [| m l]; [cbn; repeat split; reflexivity |].
  unfold deleteBatch, log_Printf, emit, modify, AddUint32, bind, ret,
    releases, deletes, handled.
  destruct (q_DeleteBatch E (m :: l)); cbn; repeat split; reflexivity.
Qed.

(** X15: stopping a processor that is not running does nothing and
    returns nil.  Stopping a running one clears [_started] and closes
    [stop], so a second stop does nothing.  When the timeout fires, the
    batcher is not waited for: the pending deletions stay pending and
    [Queuer.DeleteBatch] is not called. *)
Theorem Stop_is_idempotent
  (timeout : Duration) (sel sel' : select_case) (p : Processor) :
  (_started p <> 1 -> StopTimeout E timeout sel p = (None, p)) /\
  (_started p = 1 ->
   let p1 := snd (StopTimeout E timeout sel p) in
   _started p1 = 0 /\ stop_closed p1 = true /\
   StopTimeout E timeout sel' p1 = (None, p1)) /\
  (_started p = 1 ->
   StopTimeout E timeout TimeAfter p
   = (Some (ErrWorkersDidNotStop timeout),
      set_stop_closed true (poke addr.started 0 p))).
Proof.
  unfold StopTimeout.
  assert (Hidle : forall q s, _started q <> 1 ->
                    stopWorkersTimeout E timeout s q = (None, q)).
  { intros q s Hq. unfold stopWorkersTimeout, bind, CompareAndSwapUint32.
    cbn [peek]. destruct (Z.eqb_spec (_started q) 1); [contradiction |].
    reflexivity. }
  split; [apply Hidle |]. split.
  - intros Hs.
    assert (H0 : _started (snd (stopWorkersTimeout E timeout sel p)) = 0
                 /\ stop_closed (snd (stopWorkersTimeout E timeout sel p))
                    = true).
    { unfold stopWorkersTimeout, bind, CompareAndSwapUint32, modify, ret.
      cbn [peek]. rewrite Hs. cbn [Z.eqb Pos.eqb negb].
      destruct sel; [split; reflexivity |].
      destruct (delBatch_Wait'_frame
                  (set_stop_closed true (poke addr.started 0 p)))
        as (H1 & H2 & _).
      rewrite H1, H2. split; reflexivity. }
    destruct H0 as [H0 H1].
    split; [exact H0 |]. split; [exact H1 |].
    apply Hidle. rewrite H0. discriminate.
  - intros Hs. unfold stopWorkersTimeout, bind, CompareAndSwapUint32,
      modify, ret.
    cbn [peek]. rewrite Hs. reflexivity.
Qed.

(** X16: [Start] is guarded by [_started].  On a processor that is
    already running it starts nothing and returns nil.  On a stopped one,
    with [WorkerNumber >= 0], it sets [_started], opens [stop], starts
    [WorkerNumber] workers and one fetcher and counts them all in the wait
    group; a second [Start] then changes nothing.  [startWorkers] alone
    starts the workers without a fetcher.  A [WorkerNumber] that would
    take the wait group below zero panics. *)
Theorem Start_starts_once (rt : Runtime) :
  let n := WorkerNumber (opt (proc rt)) in
  (_started (proc rt) <> 0 -> Start rt = Some (None, rt)) /\
  (_started (proc rt) = 0 -> 0 <= n -> 0 <= wg rt ->
   exists rt',
     Start rt = Some (None, rt') /\
     _started (proc rt') = 1 /\ stop_closed (proc rt') = false /\
     wg rt' = wg rt + n + 1 /\
     spawned rt' = Fetcher :: repeat Worker (Z.to_nat n) ++ spawned rt /\
     Start rt' = Some (None, rt')) /\
  (_started (proc rt) = 0 -> 0 <= n -> 0 <= wg rt ->
   exists rt',
     startWorkers rt = Some (true, rt') /\
     wg rt' = wg rt + n /\
     spawned rt' = repeat Worker (Z.to_nat n) ++ spawned rt) /\
  (_started (proc rt) = 0 -> wg rt + n < 0 -> Start rt = None).
Proof.
  intros n. subst n.
  assert (Hrun : forall r, _started (proc r) <> 0 ->
                   Start r = Some (None, r)).
  { intros r Hr. unfold Start, startWorkers, CompareAndSwapUint32.
    cbn [peek]. destruct (Z.eqb_spec (_started (proc r)) 0);
      [contradiction | reflexivity]. }
  split; [apply Hrun |]. split; [| split].
  - intros Hs Hn Hwg.
    unfold Start, startWorkers, CompareAndSwapUint32, wg_Add, spawn.
    cbn [peek]. rewrite Hs. cbn [Z.eqb negb].
    cbn [set_stop_closed poke opt wg proc spawned].
    destruct (Z.ltb_spec (wg rt + WorkerNumber (opt (proc rt))) 0); [lia |].
    cbn [wg proc spawned].
    destruct (Z.ltb_spec (wg rt + WorkerNumber (opt (proc rt)) + 1) 0);
      [lia |].
    eexists. split; [reflexivity |].
    cbn [proc wg spawned _started stop_closed repeat app].
    repeat split; try reflexivity; apply Hrun; cbn; discriminate.
  - intros Hs Hn Hwg.
    unfold startWorkers, CompareAndSwapUint32, wg_Add, spawn.
    cbn [peek]. rewrite Hs. cbn [Z.eqb negb].
    cbn [set_stop_closed poke opt wg proc spawned].
    destruct (Z.ltb_spec (wg rt + WorkerNumber (opt (proc rt))) 0); [lia |].
    eexists. split; [reflexivity |]. split; reflexivity.
  - intros Hs Hneg.
    unfold Start, startWorkers, CompareAndSwapUint32, wg_Add.
    cbn [peek]. rewrite Hs. cbn [Z.eqb negb].
    cbn [set_stop_closed poke opt wg proc spawned].
    destruct (Z.ltb_spec (wg rt + WorkerNumber (opt (proc rt))) 0);
      [reflexivity | lia].
Qed.

Lemma ProcessOne_from_channel p msg rest :
  ch p = msg :: rest ->
  ProcessOne E p = then_Wait E (Process E msg (set_ch rest p)).
Proof.
  intros Hch.
  unfold ProcessOne, then_Wait, first_error, bind at 1.
  unfold reserveOne, bind at 1, get. rewrite Hch.
  unfold bind at 1, modify, ret, bind.
  destruct (Process E msg (set_ch rest p)) as [retErr p1].
  destruct (delBatch_Wait' E p1) as [werr p2].
  now destruct werr, retErr.
Qed.

Lemma ProcessOne_from_backend p m ms err :
  ch p = [] -> q_ReserveN E 1 = (m :: ms, err) ->
  err = None \/ err = Some ErrNotSupported ->
  ProcessOne E p
  = then_Wait E (Process E m (snd (AddUint32 addr.inFlight 1 p))).
Proof.
  intros Hch Hq Herr.
  unfold ProcessOne, bind at 1. rewrite (reserveOne_empty E p Hch), Hq.
  unfold then_Wait, first_error, bind, ret.
  destruct Herr as [-> | ->]; cbn [fst snd];
    destruct (Process E m (snd (AddUint32 addr.inFlight 1 p)))
      as [retErr p1];
    destruct (delBatch_Wait' E p1) as [werr p2];
    now destruct werr, retErr.
Qed.

(** X17: [ProcessOne] and [inFlight].  A message taken from the channel
    was counted when it was queued, and its dispatch takes it out: a net
    decrement by one.  A message reserved from the backend is counted and
    taken out in the same call: no net change, however many messages
    [ReserveN(1)] returned.  Either way exactly one terminal transition
    is made and the handler runs at most once. *)
Theorem ProcessOne_balances_inFlight (p : Processor) :
  (forall msg rest,
     ch p = msg :: rest ->
     let p' := snd (ProcessOne E p) in
     inFlight p' = uint32 (inFlight p - 1) /\ ch p' = rest /\
     terminals (trace p') = S (terminals (trace p))) /\
  (forall m ms err,
     ch p = [] -> q_ReserveN E 1 = (m :: ms, err) ->
     err = None \/ err = Some ErrNotSupported ->
     let p' := snd (ProcessOne E p) in
     inFlight p' = uint32 (inFlight p) /\ ch p' = [] /\
     terminals (trace p') = S (terminals (trace p)) /\
     (handled (trace p') <= S (handled (trace p)))%nat).
Proof.
  assert (Hwait : forall r q,
            let p' := snd (then_Wait E (r, q)) in
            inFlight p' = inFlight q /\ ch p' = ch q /\
            terminals (trace p') = terminals (trace q) /\
            handled (trace p') = handled (trace q)).
  { intros r q. unfold then_Wait.
    destruct (delBatch_Wait'_frame q) as (_ & _ & Hc & Hi & Hr & Hd & Hh).
    destruct (delBatch_Wait' E q) as [werr q']. cbn [snd] in *.
    unfold terminals. rewrite Hr, Hd. auto. }
  split.
  - intros msg rest Hc p'. subst p'.
    rewrite (ProcessOne_from_channel p msg rest Hc).
    destruct (Process_terminal E msg (set_ch rest p)) as (Hone & Hi & _).
    destruct (Process_effects E msg (set_ch rest p))
      as (_ & _ & _ & _ & _ & _ & Hcp & _).
    cbv zeta in Hcp.
    destruct (Process E msg (set_ch rest p)) as [r q]. cbn [snd] in *.
    cbn [set_ch trace inFlight ch] in Hone, Hi, Hcp.
    destruct (Hwait r q) as (Hi' & Hc' & Ht' & _).
    rewrite Hi', Hc', Ht', Hi, Hcp.
    unfold terminals, releases, deletes in *.
    split; [reflexivity |]. split; [reflexivity | lia].
  - intros m ms err Hc Hq Herr p'. subst p'.
    rewrite (ProcessOne_from_backend p m ms err Hc Hq Herr).
    set (p1 := snd (AddUint32 addr.inFlight 1 p)).
    destruct (Process_terminal E m p1) as (Hone & Hi & _).
    destruct (Process_effects E m p1)
      as (_ & Hh & _ & _ & _ & _ & Hcp & _).
    cbv zeta in Hcp, Hh.
    destruct (Process E m p1) as [r q]. cbn [snd] in *.
    destruct (Hwait r q) as (Hi' & Hc' & Ht' & Hh').
    rewrite Hi', Hc', Ht', Hh', Hi, Hcp, Hh. subst p1.
    cbn in Hone. cbn.
    rewrite uint32_sub_idemp, Hc.
    unfold terminals, releases, deletes, handled in *.
    split; [f_equal; lia |]. split; [reflexivity |].
    split; [lia |].
    destruct (negb (Delay m >? 0)); lia.
Qed.

End StartStop.

(** X15 at a running processor stopped twice. *)
Lemma Stop_is_idempotent_witness :
  StopTimeout failing_env Second Stopped
    (snd (StopTimeout failing_env Second Stopped (running sample_opt)))
  = (None, snd (StopTimeout failing_env Second Stopped (running sample_opt))).
Proof.
  destruct (Stop_is_idempotent failing_env Second Stopped Stopped
              (running sample_opt)) as (_ & H & _).
  destruct H as (_ & _ & H); [reflexivity | exact H].
Defined.

(** X16 at a fresh processor with four workers. *)
Lemma Start_starts_once_witness :
  exists rt',
    Start {| proc := New sample_opt; wg := 0; spawned := [] |}
    = Some (None, rt') /\
    wg rt' = 5 /\
    spawned rt' = [Fetcher; Worker; Worker; Worker; Worker].
Proof.
  destruct (Start_starts_once
              {| proc := New sample_opt; wg := 0; spawned := [] |})
    as (_ & H & _).
  destruct H as (rt' & Hs & _ & _ & Hwg & Hsp & _);
    [reflexivity | discriminate | discriminate |].
  exists rt'. split; [exact Hs |]. split; [exact Hwg | exact Hsp].
Defined.

(** X17 at a backend that hands over two messages for [ReserveN(1)]. *)
Lemma ProcessOne_balances_inFlight_witness :
  inFlight (snd (ProcessOne succeeding_env (New sample_opt))) = 0 /\
  terminals (trace (snd (ProcessOne succeeding_env (New sample_opt))))
  = 1%nat.
Proof.
  destruct (ProcessOne_balances_inFlight succeeding_env (New sample_opt))
    as (_ & H).
  destruct (H (job 0 1) [job 0 1] None) as (Hi & _ & Ht & _);
    [reflexivity | reflexivity | now left |].
  split; [rewrite Hi; reflexivity | exact Ht].
Defined.

(** ** Fetching, then draining *)

Section FetchAndDrain.

Variable E : Env.

(** X18: what [fetchMessages] puts in flight, a worker takes out again.
    On an empty channel, when the backend hands over messages that fit the
    buffer, [fetchMessages] queues them all, and a worker then dispatches
    each of them to one terminal transition and leaves the channel empty
    with [inFlight] back at its value before the fetch (modulo [2^32]). *)
Theorem fetch_then_drain_restores_inFlight
  (fuel : nat) (pick_stop : nat -> bool) (msgs : list Message)
  (p : Processor) :
  ch p = [] ->
  q_ReserveN E (BufferSize (opt p)) = (msgs, None) ->
  Z.of_nat (List.length msgs) <= BufferSize (opt p) ->
  (List.length msgs < fuel)%nat ->
  exists p1 p2,
    fetchMessages E p = Returns (Z.of_nat (List.length msgs), None) p1 /\
    ch p1 = msgs /\
    worker E fuel None pick_stop p1
    = Some (if stop_closed p then Returns tt p2 else Blocks p2) /\
    ch p2 = [] /\
    uint32 (inFlight p2) = uint32 (inFlight p) /\
    terminals (trace p2) = (List.length msgs + terminals (trace p))%nat.
Proof.
  intros Hch Hq Hroom Hfuel.
  destruct (queueMessages_room msgs p) as (p1 & Hqm & Hc1 & Hi1 & _ & Ht1
    & _ & Hs1).
  { rewrite Hch. cbn [List.length]. lia. }
  rewrite Hch in Hc1. cbn [app] in Hc1.
  destruct (dispatch_all_effects E msgs p1) as (Ht & Hi & _).
  exists p1, (set_ch [] (dispatch_all E msgs p1)).
  split; [unfold fetchMessages; now rewrite Hq, Hqm |].
  split; [exact Hc1 |].
  split.
  { rewrite worker_runs by (rewrite Hc1; exact Hfuel).
    now rewrite Hc1, Hs1. }
  split; [reflexivity |].
  cbn [set_ch inFlight trace].
  split.
  - rewrite Hi, <- uint32_sub_idemp, Hi1, uint32_sub_idemp. f_equal. lia.
  - rewrite Ht, Ht1. reflexivity.
Qed.

End FetchAndDrain.

(** X18 at a backend that hands over two messages. *)
Lemma fetch_then_drain_restores_inFlight_witness :
  exists p1 p2,
    fetchMessages succeeding_env (New sample_opt) = Returns (2, None) p1 /\
    worker succeeding_env 3 None (fun _ => false) p1 = Some (Blocks p2) /\
    ch p2 = [] /\ uint32 (inFlight p2) = 0.
Proof.
  destruct (fetch_then_drain_restores_inFlight succeeding_env 3
              (fun _ => false) [job 0 1; job 0 1] (New sample_opt))
    as (p1 & p2 & Hf & _ & Hw & Hc & Hi & _);
    [reflexivity | reflexivity | cbn; lia | cbn; lia |].
  exists p1, p2. repeat split; assumption.
Defined.
